(** * namemc-hash-api: the fingerprint engine and the request cache

    A shallow embedding of [src/main.go].  The handler [handleHash] resolves
    the bytes of a skin from a URL or from an upload, derives a cache key,
    and on a miss calls [computeHashes], which decodes the PNG, copies it
    into a fresh NRGBA image, blanks the colour of fully transparent pixels
    and hashes both the copy and a re-encoding of the original.

    Go's error returns and run-time panics are kept apart in [outcome];
    the images live in a small store of objects addressed by pointers, so
    that the copy made by [image.NewNRGBA] and the decoded original are two
    distinct cells; the process-wide [cache] is a finite map threaded
    through the handler. *)

From Stdlib Require Import ZArith Lia.
From Stdlib Require Import Init.Byte Strings.Byte Strings.Ascii Strings.String.
From stdpp Require Import base option list strings gmap.

Local Open Scope Z_scope.
Local Open Scope string_scope.
Local Open Scope list_scope.

(** ** Outcomes of a Go call *)

(** The message carried by a Go [error] value, what [err.Error()] returns. *)
Definition error := string.

(** A call returns normally, returns a non-nil [error], or panics. *)
Inductive outcome (A : Type) : Type :=
| Ok (a : A)
| Err (e : error)
| Panic (msg : string).

Arguments Ok {A} a.
Arguments Err {A} e.
Arguments Panic {A} msg.

(** Computations over a mutable state [S]: the state reached is returned
    even when the call fails, since a deferred [recover] observes it. *)
Definition Run (S A : Type) : Type := S -> outcome A * S.

Definition ret {S A} (a : A) : Run S A := fun s => (Ok a, s).

Definition bind {S A B} (m : Run S A) (k : A -> Run S B) : Run S B :=
  fun s =>
    match m s with
    | (Ok a, s') => k a s'
    | (Err e, s') => (Err e, s')
    | (Panic msg, s') => (Panic msg, s')
    end.

Definition fail {S A} (e : error) : Run S A := fun s => (Err e, s).

Declare Scope run_scope.
Delimit Scope run_scope with run.
Notation "'do' x <- m ; k" := (bind m (fun x => k))
  (at level 10, x pattern, m at level 100, k at level 200) : run_scope.
Notation "m ;; k" := (bind m (fun _ => k))
  (at level 100, k at level 200, right associativity) : run_scope.

(** [for i := range n { body }]: [i] runs over [0 .. n-1]; nothing runs when
    [n <= 0]. *)
Fixpoint for_from {S} (count : nat) (i : Z) (body : Z -> Run S unit)
  : Run S unit :=
  match count with
  | O => ret tt
  | S count' => bind (body i) (fun _ => for_from count' (i + 1) body)
  end.

Definition for_range {S} (n : Z) (body : Z -> Run S unit) : Run S unit :=
  for_from (Z.to_nat n) 0 body.

(** ** Bytes, slices and strings *)

Definition byte_of_Z (z : Z) : byte :=
  match Byte.of_N (Z.to_N (z mod 256)) with
  | Some b => b
  | None => x00
  end.

Definition Z_of_byte (b : byte) : Z := Z.of_N (Byte.to_N b).

(** [s[i]] on a slice: a run-time panic outside [0 <= i < len(s)]. *)
Definition index {A} (s : list A) (i : Z) : outcome A :=
  if bool_decide (0 <= i) then
    match s !! Z.to_nat i with
    | Some a => Ok a
    | None => Panic "index out of range"
    end
  else Panic "index out of range".

(** [s[i] = v] on a slice, with the same bounds check. *)
Definition set_index {A} (s : list A) (i : Z) (v : A) : outcome (list A) :=
  if bool_decide (0 <= i < Z.of_nat (length s)) then Ok (<[Z.to_nat i := v]> s)
  else Panic "index out of range".

(** [s[:n]] on a string: a run-time panic when [n > len(s)]. *)
Definition slice_to (s : string) (n : nat) : outcome string :=
  if bool_decide (n <= String.length s)%nat then Ok (String.substring 0 n s)
  else Panic "slice bounds out of range".

(** [binary.BigEndian.PutUint32(b, v)] on a fresh 4-byte window: the bytes
    written, most significant first. *)
Definition PutUint32 (v : Z) : list byte :=
  [byte_of_Z (Z.shiftr v 24); byte_of_Z (Z.shiftr v 16);
   byte_of_Z (Z.shiftr v 8); byte_of_Z v].

(** The conversion [uint32(n)] of an [int]. *)
Definition uint32 (n : Z) : Z := n mod 2 ^ 32.

(** [hex.EncodeToString]: two digits of ["0123456789abcdef"] per byte,
    high nibble first. *)
Definition hextable : string := "0123456789abcdef".

Definition hex_digit (n : Z) : ascii :=
  match String.get (Z.to_nat n) hextable with
  | Some c => c
  | None => "0"%char
  end.

Fixpoint hex_EncodeToString (src : list byte) : string :=
  match src with
  | [] => EmptyString
  | v :: rest =>
      String (hex_digit (Z.shiftr (Z_of_byte v) 4))
        (String (hex_digit (Z.land (Z_of_byte v) 15))
           (hex_EncodeToString rest))
  end.

(** ** Package [crypto/sha256]: SHA-256 (FIPS 180-4) on byte slices *)

Module sha256.

Definition add32 (x y : Z) : Z := (x + y) mod 2 ^ 32.

Definition rotr (n x : Z) : Z :=
  Z.lor (Z.shiftr x n) ((Z.shiftl x (32 - n)) mod 2 ^ 32).

Definition Ch (x y z : Z) : Z :=
  Z.lxor (Z.land x y) (Z.land (Z.lxor x 0xffffffff) z).

Definition Maj (x y z : Z) : Z :=
  Z.lxor (Z.lxor (Z.land x y) (Z.land x z)) (Z.land y z).

Definition Sigma0 (x : Z) : Z :=
  Z.lxor (Z.lxor (rotr 2 x) (rotr 13 x)) (rotr 22 x).
Definition Sigma1 (x : Z) : Z :=
  Z.lxor (Z.lxor (rotr 6 x) (rotr 11 x)) (rotr 25 x).
Definition sigma0 (x : Z) : Z :=
  Z.lxor (Z.lxor (rotr 7 x) (rotr 18 x)) (Z.shiftr x 3).
Definition sigma1 (x : Z) : Z :=
  Z.lxor (Z.lxor (rotr 17 x) (rotr 19 x)) (Z.shiftr x 10).

(** The round constants, four to a line. *)
Definition K : list Z :=
  [0x428a2f98; 0x71374491; 0xb5c0fbcf; 0xe9b5dba5]
  ++ [0x3956c25b; 0x59f111f1; 0x923f82a4; 0xab1c5ed5]
  ++ [0xd807aa98; 0x12835b01; 0x243185be; 0x550c7dc3]
  ++ [0x72be5d74; 0x80deb1fe; 0x9bdc06a7; 0xc19bf174]
  ++ [0xe49b69c1; 0xefbe4786; 0x0fc19dc6; 0x240ca1cc]
  ++ [0x2de92c6f; 0x4a7484aa; 0x5cb0a9dc; 0x76f988da]
  ++ [0x983e5152; 0xa831c66d; 0xb00327c8; 0xbf597fc7]
  ++ [0xc6e00bf3; 0xd5a79147; 0x06ca6351; 0x14292967]
  ++ [0x27b70a85; 0x2e1b2138; 0x4d2c6dfc; 0x53380d13]
  ++ [0x650a7354; 0x766a0abb; 0x81c2c92e; 0x92722c85]
  ++ [0xa2bfe8a1; 0xa81a664b; 0xc24b8b70; 0xc76c51a3]
  ++ [0xd192e819; 0xd6990624; 0xf40e3585; 0x106aa070]
  ++ [0x19a4c116; 0x1e376c08; 0x2748774c; 0x34b0bcb5]
  ++ [0x391c0cb3; 0x4ed8aa4a; 0x5b9cca4f; 0x682e6ff3]
  ++ [0x748f82ee; 0x78a5636f; 0x84c87814; 0x8cc70208]
  ++ [0x90befffa; 0xa4506ceb; 0xbef9a3f7; 0xc67178f2].

(** The eight working words [a .. h]. *)
Record digest := mkDigest {
  h0 : Z; h1 : Z; h2 : Z; h3 : Z; h4 : Z; h5 : Z; h6 : Z; h7 : Z
}.

Definition init : digest :=
  mkDigest 0x6a09e667 0xbb67ae85 0x3c6ef372 0xa54ff53a
           0x510e527f 0x9b05688c 0x1f83d9ab 0x5be0cd19.

(** Big-endian words of a block. *)
Fixpoint words (block : list byte) : list Z :=
  match block with
  | a :: b :: c :: d :: rest =>
      (Z.shiftl (Z_of_byte a) 24 + Z.shiftl (Z_of_byte b) 16
       + Z.shiftl (Z_of_byte c) 8 + Z_of_byte d) :: words rest
  | _ => []
  end.

(** The message schedule, extended by [n] words. *)
Fixpoint schedule (n : nat) (W : list Z) : list Z :=
  match n with
  | O => W
  | S n' =>
      let t := length W in
      let w := add32 (add32 (sigma1 (nth (t - 2) W 0)) (nth (t - 7) W 0))
                     (add32 (sigma0 (nth (t - 15) W 0)) (nth (t - 16) W 0)) in
      schedule n' (W ++ [w])
  end.

Definition round (s : digest) (kw : Z * Z) : digest :=
  let t1 := add32 (add32 (add32 (h7 s) (Sigma1 (h4 s)))
                         (add32 (Ch (h4 s) (h5 s) (h6 s)) (fst kw)))
                  (snd kw) in
  let t2 := add32 (Sigma0 (h0 s)) (Maj (h0 s) (h1 s) (h2 s)) in
  mkDigest (add32 t1 t2) (h0 s) (h1 s) (h2 s)
           (add32 (h3 s) t1) (h4 s) (h5 s) (h6 s).

Definition compress (s : digest) (block : list byte) : digest :=
  let W := schedule 48 (words block) in
  let r := fold_left round (combine K W) s in
  mkDigest (add32 (h0 s) (h0 r)) (add32 (h1 s) (h1 r))
           (add32 (h2 s) (h2 r)) (add32 (h3 s) (h3 r))
           (add32 (h4 s) (h4 r)) (add32 (h5 s) (h5 r))
           (add32 (h6 s) (h6 r)) (add32 (h7 s) (h7 r)).

Fixpoint blocks (n : nat) (msg : list byte) (s : digest) : digest :=
  match n with
  | O => s
  | S n' => blocks n' (drop 64 msg) (compress s (take 64 msg))
  end.

(** The message followed by [0x80], zeros up to 56 modulo 64, and the bit
    length as a 64-bit big-endian number. *)
Definition pad (msg : list byte) : list byte :=
  let len := Z.of_nat (length msg) in
  let bits := 8 * len in
  msg ++ [x80] ++ replicate (Z.to_nat ((55 - len) mod 64)) x00
      ++ PutUint32 (Z.shiftr bits 32) ++ PutUint32 bits.

(** [sha256.Sum256(data)], the 32 bytes of the checksum. *)
Definition Sum256 (data : list byte) : list byte :=
  let padded := pad data in
  let s := blocks (length padded / 64) padded init in
  PutUint32 (h0 s) ++ PutUint32 (h1 s) ++ PutUint32 (h2 s) ++ PutUint32 (h3 s)
    ++ PutUint32 (h4 s) ++ PutUint32 (h5 s) ++ PutUint32 (h6 s)
    ++ PutUint32 (h7 s).

End sha256.

(** ** Package [image] of Go's standard library: geometry and NRGBA *)

Module image.

Record Point := mkPoint { X : Z; Y : Z }.

Record Rectangle := mkRectangle { Min : Point; Max : Point }.

Definition Dx (r : Rectangle) : Z := X (Max r) - X (Min r).
Definition Dy (r : Rectangle) : Z := Y (Max r) - Y (Min r).

(** An in-memory image of non-premultiplied 8-bit R, G, B, A samples:
    the pixel at [(x, y)] starts at
    [Pix[(y-Rect.Min.Y)*Stride + (x-Rect.Min.X)*4]]. *)
Record NRGBA := mkNRGBA { Pix : list byte; Stride : Z; Rect : Rectangle }.

(** The largest value of a 64-bit [int]. *)
Definition MaxInt : Z := 2 ^ 63 - 1.

(** [image.NewNRGBA(r)]: a zeroed buffer of [4 * r.Dx() * r.Dy()] bytes,
    and a panic when that length is negative or does not fit an [int]. *)
Definition NewNRGBA (r : Rectangle) : outcome NRGBA :=
  if bool_decide (0 <= Dx r /\ 0 <= Dy r /\ 4 * Dx r * Dy r <= MaxInt) then
    Ok {| Pix := replicate (Z.to_nat (4 * Dx r * Dy r)) x00;
          Stride := 4 * Dx r;
          Rect := r |}
  else Panic "image: NewNRGBA Rectangle has huge or negative dimensions".

(** [p.PixOffset(x, y)]. *)
Definition PixOffset (p : NRGBA) (x y : Z) : Z :=
  (y - Y (Min (Rect p))) * Stride p + (x - X (Min (Rect p))) * 4.

End image.

(** The compositing operators of [image/draw]. *)
Inductive draw_Op := draw_Over | draw_Src.

(** The output formats of [github.com/disintegration/imaging]. *)
Inductive imaging_Format :=
| imaging_JPEG | imaging_PNG | imaging_GIF | imaging_TIFF | imaging_BMP.

(** ** The response *)

Record HashResponse := mkHashResponse {
Standard : string;
AlphaNormalized : string;
AlphaNormalizedCompact : string
}.

#[global] Instance HashResponse_eq_dec : EqDecision HashResponse.
Proof. solve_decision. Defined.

(** ** Package [net/url]: the parsed form of a URL *)

Module url.

Record Userinfo := mkUserinfo {
  username : string;
  password : string;
  passwordSet : bool
}.

(** The fields of [url.URL]: [RawQuery] is the encoded query without its
    question mark, [ForceQuery] asks for a question mark even when [RawQuery]
    is empty, [Fragment] is the fragment without its hash sign, and
    [RawPath] and [RawFragment] are encoding hints. *)
Record URL := mkURL {
  Scheme : string;
  Opaque : string;
  User : option Userinfo;
  Host : string;
  Path : string;
  RawPath : string;
  OmitHost : bool;
  ForceQuery : bool;
  RawQuery : string;
  Fragment : string;
  RawFragment : string
}.

(** The assignment [u.RawQuery = v]. *)
Definition set_RawQuery (v : string) (u : URL) : URL :=
  {| Scheme := Scheme u; Opaque := Opaque u; User := User u;
     Host := Host u; Path := Path u; RawPath := RawPath u;
     OmitHost := OmitHost u; ForceQuery := ForceQuery u;
     RawQuery := v;
     Fragment := Fragment u; RawFragment := RawFragment u |}.

(** The assignment [u.Fragment = v]. *)
Definition set_Fragment (v : string) (u : URL) : URL :=
  {| Scheme := Scheme u; Opaque := Opaque u; User := User u;
     Host := Host u; Path := Path u; RawPath := RawPath u;
     OmitHost := OmitHost u; ForceQuery := ForceQuery u;
     RawQuery := RawQuery u;
     Fragment := v; RawFragment := RawFragment u |}.

End url.

(** ** Package [net/http]: what the handler sees of it *)

Module http.

Definition StatusBadRequest : Z := 400.
Definition StatusInternalServerError : Z := 500.

(** A response of [http.Get]: its status code, and what [io.ReadAll]
    returns on its body. *)
Record Response := mkResponse {
  StatusCode : Z;
  Body : list byte + error
}.

(** The request as [handleHash] reads it: the value of the [url] query
    parameter, and the result of [r.FormFile("file")], an uploaded file
    given by what [io.ReadAll] returns on it. *)
Record Request := mkRequest {
  query_url : string;
  FormFile : (list byte + error) + error
}.

(** What a handler wrote to its [http.ResponseWriter]: a body with a status
    through [http.Error], or a JSON document through [writeJSON]. *)
Inductive Reply :=
| ErrorReply (body : string) (code : Z)
| JSONReply (v : HashResponse).

End http.

(** ** Package [strings]: cutting at a one-byte separator

    The program splits on ["\n"] and on ["="] only; for a separator of one
    byte the search is a comparison byte by byte. *)

Definition newline : ascii := ascii_of_nat 10.

(** [strings.Split(s, sep)], which [strings.SplitSeq(s, sep)] yields in
    order: the pieces between the separators, one piece for a string
    without separator, the empty string included. *)
Fixpoint strings_Split (s : string) (sep : ascii) : list string :=
  match s with
  | EmptyString => [EmptyString]
  | String c rest =>
      if Ascii.eqb c sep then EmptyString :: strings_Split rest sep
      else match strings_Split rest sep with
           | piece :: pieces => String c piece :: pieces
           | [] => [String c EmptyString]
           end
  end.

(** [strings.Contains(s, sep)]. *)
Fixpoint strings_Contains (s : string) (sep : ascii) : bool :=
  match s with
  | EmptyString => false
  | String c rest => Ascii.eqb c sep || strings_Contains rest sep
  end.

(** [strings.SplitN(s, sep, 2)]: the string cut at the first separator,
    or the string alone when it has none. *)
Fixpoint strings_SplitN_2 (s : string) (sep : ascii) : list string :=
  match s with
  | EmptyString => [EmptyString]
  | String c rest =>
      if Ascii.eqb c sep then [EmptyString; rest]
      else match strings_SplitN_2 rest sep with
           | piece :: pieces => String c piece :: pieces
           | [] => [String c EmptyString]
           end
  end.

(** ** A miniature library to run the program on

    Stand-ins for the packages the program is linked with, small enough to
    evaluate: an uncompressed image container in place of the PNG and JPEG
    codecs, ASCII lower-casing, a URL syntax with scheme, authority, path,
    query and fragment, and a table of remote resources. *)

Module fixture.

(** A decoded image: its bounds and its non-premultiplied samples in
    row-major order. *)
Record Image := mkImage {
  bounds : image.Rectangle;
  samples : list byte
}.

Definition origin_rect (w h : Z) : image.Rectangle :=
  image.mkRectangle (image.mkPoint 0 0) (image.mkPoint w h).

(** The container: a tag byte (["P"] or ["J"]), width, height, then four
    bytes per pixel. *)
Definition Decode (data : list byte) : (Image * string) + error :=
  match data with
  | tag :: w :: h :: body =>
      if bool_decide (Z.of_nat (length body) = 4 * Z_of_byte w * Z_of_byte h)
      then
        let img := mkImage (origin_rect (Z_of_byte w) (Z_of_byte h)) body in
        if Byte.eqb tag "P"%byte then inl (img, "png")
        else if Byte.eqb tag "J"%byte then inl (img, "jpeg")
        else inr "image: unknown format"
      else inr "unexpected EOF"
  | _ => inr "image: unknown format"
  end.

(** Drawing with any operator copies the samples when the destination has
    room for exactly them. *)
Definition Draw (dst : image.NRGBA) (r : image.Rectangle) (src : Image)
    (sp : image.Point) (op : draw_Op) : image.NRGBA :=
  {| image.Pix :=
       if bool_decide (length (samples src) = length (image.Pix dst))
       then samples src else image.Pix dst;
     image.Stride := image.Stride dst;
     image.Rect := image.Rect dst |}.

Definition Encode (img : Image) (format : imaging_Format)
  : list byte + error :=
  match format with
  | imaging_PNG =>
      inl ("P"%byte :: byte_of_Z (image.Dx (bounds img))
             :: byte_of_Z (image.Dy (bounds img)) :: samples img)
  | _ => inr "imaging: unsupported image format"
  end.

Definition lower (c : ascii) : ascii :=
  let n := nat_of_ascii c in
  if (65 <=? n)%nat && (n <=? 90)%nat then ascii_of_nat (n + 32) else c.

Fixpoint ToLower (s : string) : string :=
  match s with
  | EmptyString => EmptyString
  | String c rest => String (lower c) (ToLower rest)
  end.

(** [strings.Cut(s, sep)] for a one-character separator. *)
Fixpoint Cut (sep : ascii) (s : string) : string * string * bool :=
  match s with
  | EmptyString => (EmptyString, EmptyString, false)
  | String c rest =>
      if Ascii.eqb c sep then (EmptyString, rest, true)
      else let '(before, after, found) := Cut sep rest in
           (String c before, after, found)
  end.

(** The message of the [*url.Error] that [url.Parse] returns for [u], the
    string without its fragment: [parse], the string in double quotes, a
    colon and the reason. *)
Definition parse_error (u reason : string) : error :=
  "parse " +:+ String (ascii_of_nat 34)
    (u +:+ String (ascii_of_nat 34) (": " +:+ reason)).

(** [url.Parse] on the syntax [scheme://host/path?query#fragment]: the
    fragment is cut at the first hash sign, the scheme at the first colon,
    the query at the first question mark; a question mark with nothing
    after it sets [ForceQuery], as in [net/url].  A string that starts with
    a colon is refused as [net/url] refuses it.  A string with no colon,
    which [net/url] reads as a relative reference, is outside this syntax
    and is refused as well. *)
Definition Parse (raw : string) : url.URL + error :=
  let '(u, frag, _) := Cut "#" raw in
  let '(scheme, rest, has_scheme) := Cut ":" u in
  if has_scheme && bool_decide (scheme = "")
  then inr (parse_error u "missing protocol scheme")
  else if negb has_scheme then inr "parse: missing protocol scheme"
  else
    let '(rest, query, has_query) := Cut "?" rest in
    let '(_, after_slashes, _) := Cut "/" (String.substring 1 (String.length rest) rest) in
    let '(host, path, has_path) := Cut "/" after_slashes in
    inl {| url.Scheme := ToLower scheme;
           url.Opaque := "";
           url.User := None;
           url.Host := host;
           url.Path := if has_path then String "/" path else "";
           url.RawPath := "";
           url.OmitHost := false;
           url.ForceQuery := has_query && bool_decide (query = "");
           url.RawQuery := query;
           url.Fragment := frag;
           url.RawFragment := "" |}.

(** [u.String()] on the same syntax: a question mark and the query when
    [ForceQuery] is set or [RawQuery] is not empty, a hash sign and the
    fragment when [Fragment] is not empty, as in [net/url]. *)
Definition String_ (u : url.URL) : string :=
  url.Scheme u +:+ "://" +:+ url.Host u +:+ url.Path u
    +:+ (if url.ForceQuery u || bool_decide (url.RawQuery u <> "")
         then "?" +:+ url.RawQuery u else "")
    +:+ (if bool_decide (url.Fragment u <> "")
         then "#" +:+ url.Fragment u else "").

(** The 2x2 image of the scenario: red opaque, green fully transparent,
    blue half transparent, yellow fully transparent. *)
Definition scenario_pixels : list byte :=
  [xff; x00; x00; xff;   x00; xff; x00; x00;
   x00; x00; xff; x80;   xff; xff; x00; x00]%byte.

Definition scenario_png : list byte := "P"%byte :: x02 :: x02 :: scenario_pixels.

(** The same image with the colour under the transparent pixels blanked. *)
Definition blanked_pixels : list byte :=
  [xff; x00; x00; xff;   x00; x00; x00; x00;
   x00; x00; xff; x80;   x00; x00; x00; x00]%byte.

Definition blanked_png : list byte := "P"%byte :: x02 :: x02 :: blanked_pixels.

Definition scenario_jpeg : list byte := "J"%byte :: x02 :: x02 :: scenario_pixels.


(** The responses expected for the two images. *)
Definition scenario_response : HashResponse :=
  {| Standard :=
       "366bd4b244793979ba0cc0cfa8c19c25d1cf57b2bd9903d8a4f588896ac18825";
     AlphaNormalized :=
       "9b4a82f46bbb620d137d8011b186072232ebe52ce7062a7d77541ed0ec015167";
     AlphaNormalizedCompact := "9b4a82f46bbb620d" |}.

Definition blanked_response : HashResponse :=
  {| Standard :=
       "823cbe782d8b80c8da34a56ca1d4c6ef8dd8f0bb02bd22237d030e90162c1ad5";
     AlphaNormalized :=
       "9b4a82f46bbb620d137d8011b186072232ebe52ce7062a7d77541ed0ec015167";
     AlphaNormalizedCompact := "9b4a82f46bbb620d" |}.

(** The buffer hashed for the scenario. *)
Definition scenario_alpha_buffer : list byte :=
  [x00; x00; x00; x02;   x00; x00; x00; x02]%byte ++ blanked_pixels.

(** Requests: the skin by URL, in two spellings, a missing page, and the
    skin as an upload. *)
Definition no_upload : (list byte + error) + error :=
  inr "request Content-Type isn't multipart/form-data".

Definition by_url_a : http.Request :=
  http.mkRequest "http://x/img.png?a=1#frag" no_upload.

Definition by_url_b : http.Request :=
  http.mkRequest "http://x/img.png?b=2" no_upload.

Definition missing_page : http.Request :=
  http.mkRequest "http://x/missing.png" no_upload.

Definition by_upload : http.Request :=
  http.mkRequest "" (inl (inl scenario_png)).

(** [strings.TrimSpace] on ASCII text: blanks, tabs, line feeds, vertical
    tabs, form feeds and carriage returns are cut from both ends. *)
Definition is_space (c : ascii) : bool :=
  let n := nat_of_ascii c in
  ((9 <=? n)%nat && (n <=? 13)%nat) || (n =? 32)%nat.

Fixpoint TrimLeft (s : string) : string :=
  match s with
  | String c rest => if is_space c then TrimLeft rest else s
  | EmptyString => EmptyString
  end.

Fixpoint TrimRight (s : string) : string :=
  match s with
  | EmptyString => EmptyString
  | String c rest =>
      match TrimRight rest with
      | EmptyString => if is_space c then EmptyString else String c EmptyString
      | kept => String c kept
      end
  end.

Definition TrimSpace (s : string) : string := TrimRight (TrimLeft s).

(** A [.env] file, read whole: a comment, the host, the port given twice,
    a blank line and a value with an equals sign in it. *)
Definition dotenv_text : string :=
  "# settings" +:+ String newline
    ("HOST = 127.0.0.1" +:+ String newline
       ("PORT=8080" +:+ String newline
          (String newline
             ("PORT=9090" +:+ String newline
                ("TOKEN=a=b" +:+ String newline EmptyString))))).

Definition dotenv : (string + error) + error := inl (inl dotenv_text).

(** The remote resources: one skin, one missing page, and nothing else. *)
Definition Get (u : string) : option http.Response * option error :=
  if bool_decide (u = "http://x/img.png?a=1#frag") then
    (Some (http.mkResponse 200 (inl scenario_png)), None)
  else if bool_decide (u = "http://x/missing.png") then
    (Some (http.mkResponse 404 (inl [])), None)
  else (None, Some "dial tcp: no such host").

End fixture.

(** ** Package [image/color]: colours with and without premultiplied alpha *)

Module color.

(** A [color.NRGBA]: 8 bits per channel, alpha not premultiplied. *)
Record NRGBA := mkNRGBA { R : byte; G : byte; B : byte; A : byte }.

(** A [color.RGBA64]: 16 bits per channel, alpha premultiplied. *)
Record RGBA64 := mkRGBA64 { R16 : Z; G16 : Z; B16 : Z; A16 : Z }.

(** [c.RGBA()] of a [color.NRGBA], which the method [RGBA64At] of [image.Paletted]
    returns for a palette entry: each channel is widened to 16 bits
    ([r |= r << 8]), multiplied by alpha and divided by [0xff]. *)
Definition premultiplied (c : NRGBA) : RGBA64 :=
  let widen v := Z_of_byte v * 257 in
  let scale v := widen v * Z_of_byte (A c) / 255 in
  mkRGBA64 (scale (R c)) (scale (G c)) (scale (B c)) (widen (A c)).

(** The four samples the method [SetRGBA64] of [image.NRGBA] writes for [c]: unless
    alpha is 0 or [0xffff] each channel is multiplied by [0xffff] and
    divided by alpha; the high byte of each channel is kept. *)
Definition unpremultiplied (c : RGBA64) : list byte :=
  let restore v :=
    if bool_decide (A16 c <> 0 /\ A16 c <> 65535) then v * 65535 / A16 c
    else v in
  [byte_of_Z (Z.shiftr (restore (R16 c)) 8);
   byte_of_Z (Z.shiftr (restore (G16 c)) 8);
   byte_of_Z (Z.shiftr (restore (B16 c)) 8);
   byte_of_Z (Z.shiftr (A16 c) 8)].

End color.

(** ** A second miniature library, with the two kinds of 8-bit image

    The PNG decoder returns an [*image.NRGBA] for truecolour with alpha and
    an [*image.Paletted], with a palette of [color.NRGBA], for an indexed
    image with a transparency chunk.  [draw.Draw] with [draw.Src] into an
    NRGBA destination copies the bytes of the first, and converts every
    pixel of the second through [RGBA64At] and [SetRGBA64].  The container
    stands in for the PNG file format as in [fixture]; the images are
    drawn whole, as the program draws them. *)

Module paletted.

Inductive Image :=
| TrueColour (samples : list byte) (w h : Z)
| Indexed (indices : list byte) (w h : Z) (palette : list color.NRGBA).

Definition bounds (img : Image) : image.Rectangle :=
  match img with
  | TrueColour _ w h => fixture.origin_rect w h
  | Indexed _ w h _ => fixture.origin_rect w h
  end.

Definition transparent_black : color.NRGBA := color.mkNRGBA x00 x00 x00 x00.

(** [img.At(x, y)] inside the bounds, as a [color.NRGBA]: the decoded
    R, G, B, A of the pixel. *)
Definition At (img : Image) (x y : Z) : color.NRGBA :=
  match img with
  | TrueColour samples w _ =>
      let i := Z.to_nat (4 * (y * w + x)) in
      color.mkNRGBA (default x00 (samples !! i))
        (default x00 (samples !! (i + 1)%nat))
        (default x00 (samples !! (i + 2)%nat))
        (default x00 (samples !! (i + 3)%nat))
  | Indexed indices w _ palette =>
      let i := default x00 (indices !! Z.to_nat (y * w + x)) in
      default transparent_black (palette !! Z.to_nat (Z_of_byte i))
  end.

Fixpoint colours (bytes : list byte) : list color.NRGBA :=
  match bytes with
  | r :: g :: b :: a :: rest => color.mkNRGBA r g b a :: colours rest
  | _ => []
  end.

Definition colour_bytes (c : color.NRGBA) : list byte :=
  [color.R c; color.G c; color.B c; color.A c].

(** The container: tag ["P"], width, height and four bytes per pixel for
    truecolour; tag ["Q"], width, height, the number of palette entries,
    four bytes per entry and one index per pixel for an indexed image. *)
Definition Decode (data : list byte) : (Image * string) + error :=
  match data with
  | tag :: w :: h :: body =>
      let pixels := Z_of_byte w * Z_of_byte h in
      if Byte.eqb tag "P"%byte then
        if bool_decide (Z.of_nat (length body) = 4 * pixels)
        then inl (TrueColour body (Z_of_byte w) (Z_of_byte h), "png")
        else inr "unexpected EOF"
      else if Byte.eqb tag "Q"%byte then
        match body with
        | n :: rest =>
            let entries := Z.to_nat (4 * Z_of_byte n) in
            if bool_decide (Z.of_nat (length rest)
                            = 4 * Z_of_byte n + pixels)
            then inl (Indexed (drop entries rest) (Z_of_byte w)
                        (Z_of_byte h) (colours (take entries rest)), "png")
            else inr "unexpected EOF"
        | [] => inr "unexpected EOF"
        end
      else inr "image: unknown format"
  | _ => inr "image: unknown format"
  end.

(** The samples [draw.Draw] writes for an image drawn whole: the bytes of
    a truecolour image as they are, and for an indexed image the
    conversion of each pixel, row by row. *)
Definition drawn (src : Image) : list byte :=
  match src with
  | TrueColour samples _ _ => samples
  | Indexed _ w h _ =>
      flat_map (fun y =>
        flat_map (fun x =>
          color.unpremultiplied (color.premultiplied (At src x y)))
          (seqZ 0 w))
        (seqZ 0 h)
  end.

Definition Draw (dst : image.NRGBA) (r : image.Rectangle) (src : Image)
    (sp : image.Point) (op : draw_Op) : image.NRGBA :=
  {| image.Pix :=
       if bool_decide (length (drawn src) = length (image.Pix dst))
       then drawn src else image.Pix dst;
     image.Stride := image.Stride dst;
     image.Rect := image.Rect dst |}.

Definition Encode (img : Image) (format : imaging_Format)
  : list byte + error :=
  match format, img with
  | imaging_PNG, TrueColour samples w h =>
      inl ("P"%byte :: byte_of_Z w :: byte_of_Z h :: samples)
  | imaging_PNG, Indexed indices w h palette =>
      inl ("Q"%byte :: byte_of_Z w :: byte_of_Z h
             :: byte_of_Z (Z.of_nat (length palette))
             :: flat_map colour_bytes palette ++ indices)
  | _, _ => inr "imaging: unsupported image format"
  end.

(** One pixel, decoded as R=1, G=2, B=3, A=1, as a truecolour image and
    as an indexed image whose palette has that one entry. *)
Definition faint_truecolour : list byte :=
  ["P"; x01; x01; x01; x02; x03; x01]%byte.

Definition faint_indexed : list byte :=
  ["Q"; x01; x01; x01; x01; x02; x03; x01; x00]%byte.

(** Two pixels in a row, decoded as R=1, G=2, B=3, A=1 and as a fully
    transparent pixel: with the colour (9, 9, 9) under it in the truecolour
    image, with that colour zeroed in the indexed image. *)
Definition veiled_truecolour : list byte :=
  ["P"; x02; x01; x01; x02; x03; x01; x09; x09; x09; x00]%byte.

Definition veiled_indexed : list byte :=
  ["Q"; x02; x01; x02; x01; x02; x03; x01; x00; x00; x00; x00;
   x00; x01]%byte.

(** The truecolour image again, with the hidden colour zeroed. *)
Definition zeroed_truecolour : list byte :=
  ["P"; x02; x01; x01; x02; x03; x01; x00; x00; x00; x00]%byte.

(** What the engine answers for three of them. *)
Definition faint_indexed_response : HashResponse :=
  {| Standard :=
       "83b7ad2217c0bd9ac626d835b5d99b987fea27af557a60722fe0999bfa4d568b";
     AlphaNormalized :=
       "cad657c343d550aba4fa0bf66dda9395d87d260b8e99562b9e3fdea7bbe7c213";
     AlphaNormalizedCompact := "cad657c343d550ab" |}.

Definition veiled_truecolour_response : HashResponse :=
  {| Standard :=
       "ce91964e034a89b70b719fe8e8f9511d9915f0c2530c343e26887d32a126ebe7";
     AlphaNormalized :=
       "461ceef9c2a2397a87766c0115ae4f563310ee603b58681ed96bc86b9bf13f25";
     AlphaNormalizedCompact := "461ceef9c2a2397a" |}.

Definition veiled_indexed_response : HashResponse :=
  {| Standard :=
       "b33c17634d9fda330704dcdd57ea2c3feaa1793b5f551b0de9b98f219ec08c97";
     AlphaNormalized :=
       "f597ab9e8463daa60678019a88e90d2224394ba2134eef6e1cd5edf4045cc34c";
     AlphaNormalizedCompact := "f597ab9e8463daa6" |}.

End paletted.

(** ** The program *)

Section Program.

(** What the program takes from its libraries: the decoded image behind
    the [image.Image] interface, the registered decoders, the drawing
    routine, the PNG encoder of [imaging], [strings.ToLower], the URL parser
    and serialiser, and the HTTP client. *)
Variable Image : Type.
Variable Image_Bounds : Image -> image.Rectangle.
Variable image_Decode : list byte -> (Image * string) + error.
Variable draw_Draw :
  image.NRGBA -> image.Rectangle -> Image -> image.Point -> draw_Op ->
  image.NRGBA.
Variable imaging_Encode : Image -> imaging_Format -> list byte + error.
Variable strings_ToLower : string -> string.
Variable url_Parse : string -> url.URL + error.
Variable URL_String : url.URL -> string.
Variable http_Get : string -> option http.Response * option error.
Variable strings_TrimSpace : string -> string.

(** *** The store of image objects *)

Inductive object :=
| ObjImage (img : Image)
| ObjNRGBA (p : image.NRGBA).

Local Abbreviation Heap := (list object).
Local Abbreviation ptr := nat.

Definition nil_deref : string :=
  "runtime error: invalid memory address or nil pointer dereference".

(** Allocation returns the address of a cell no live pointer refers to. *)
Definition new (o : object) : Run Heap ptr :=
  fun h => (Ok (length h), h ++ [o]).

Definition load_Image (p : ptr) : Run Heap Image :=
  fun h =>
    match h !! p with
    | Some (ObjImage img) => (Ok img, h)
    | _ => (Panic nil_deref, h)
    end.

Definition load_NRGBA (p : ptr) : Run Heap image.NRGBA :=
  fun h =>
    match h !! p with
    | Some (ObjNRGBA n) => (Ok n, h)
    | _ => (Panic nil_deref, h)
    end.

Definition store (p : ptr) (o : object) : Run Heap unit :=
  fun h => (Ok tt, <[p := o]> h).

(** A pure call that may panic, run in the current state. *)
Definition lift {S A} (o : outcome A) : Run S A := fun s => (o, s).

(** [img.Bounds()] through the interface value [img]. *)
Definition Bounds (img : ptr) : Run Heap image.Rectangle :=
  (do i <- load_Image img; ret (Image_Bounds i))%run.

(** [image.NewNRGBA(r)], returning the pointer to the new image. *)
Definition NewNRGBA (r : image.Rectangle) : Run Heap ptr :=
  (do n <- lift (image.NewNRGBA r); new (ObjNRGBA n))%run.

(** [draw.Draw(dst, r, src, sp, op)] writes into [dst] only. *)
Definition Draw (dst : ptr) (r : image.Rectangle) (src : ptr)
    (sp : image.Point) (op : draw_Op) : Run Heap unit :=
  (do d <- load_NRGBA dst;
   do s <- load_Image src;
   store dst (ObjNRGBA (draw_Draw d r s sp op)))%run.

(** [rgba.PixOffset(x, y)]. *)
Definition PixOffset (rgba : ptr) (x y : Z) : Run Heap Z :=
  (do n <- load_NRGBA rgba; ret (image.PixOffset n x y))%run.

(** [rgba.Pix[i]]. *)
Definition Pix_get (rgba : ptr) (i : Z) : Run Heap byte :=
  (do n <- load_NRGBA rgba; lift (index (image.Pix n) i))%run.

(** [rgba.Pix[i] = v]. *)
Definition Pix_set (rgba : ptr) (i : Z) (v : byte) : Run Heap unit :=
  (do n <- load_NRGBA rgba;
   do pix <- lift (set_index (image.Pix n) i v);
   store rgba (ObjNRGBA {| image.Pix := pix;
                           image.Stride := image.Stride n;
                           image.Rect := image.Rect n |}))%run.

(** [rgba.Pix], read whole. *)
Definition Pix_all (rgba : ptr) : Run Heap (list byte) :=
  (do n <- load_NRGBA rgba; ret (image.Pix n))%run.

(** [imaging.Encode(buffer, img, format)] into a fresh [bytes.Buffer]:
    the bytes of the buffer, or the error returned. *)
Definition Encode (img : ptr) (format : imaging_Format)
  : Run Heap (list byte) :=
  (do i <- load_Image img;
   match imaging_Encode i format with
   | inl encoded => ret encoded
   | inr err => fail err
   end)%run.

(** *** [hashBuffer], [sha256Hex] and [computeHashes] *)

Definition hashBuffer (data : list byte) : string :=
  let sum := sha256.Sum256 data in
  hex_EncodeToString sum.

Definition sha256Hex (data : list byte) : string :=
  let sum := sha256.Sum256 data in
  hex_EncodeToString sum.

(** The body of the two nested loops at pixel [(x, y)]. *)
Definition blank_if_transparent (rgba : ptr) (x y : Z) : Run Heap unit :=
  (do i <- PixOffset rgba x y;
   do a <- Pix_get rgba (i + 3);
   if Byte.eqb a x00 then
     Pix_set rgba (i + 0) x00 ;;
     Pix_set rgba (i + 1) x00 ;;
     Pix_set rgba (i + 2) x00
   else ret tt)%run.

Definition computeHashes (imgBytes : list byte) : Run Heap HashResponse :=
  match image_Decode imgBytes with
  | inr err => fail ("image decode failed: " +:+ err)
  | inl (decoded, format) =>
    (do img <- new (ObjImage decoded);
     if bool_decide (strings_ToLower format <> "png") then
       fail "only PNG images are supported"
     else
       do bounds <- Bounds img;
       let width := image.Dx bounds in
       let height := image.Dy bounds in
       do rgba <- NewNRGBA bounds;
       Draw rgba bounds img (image.Min bounds) draw_Src ;;
       for_range height (fun y =>
         for_range width (fun x => blank_if_transparent rgba x y)) ;;
       let header := PutUint32 (uint32 width) ++ PutUint32 (uint32 height) in
       do pix <- Pix_all rgba;
       let alphaBuffer := header ++ pix in
       let alphaHash := hashBuffer alphaBuffer in
       do encoded <- Encode img imaging_PNG;
       let standardHash := hashBuffer encoded in
       do compact <- lift (slice_to alphaHash 16);
       ret {| Standard := standardHash;
              AlphaNormalized := alphaHash;
              AlphaNormalizedCompact := compact |})%run
  end.

(** *** [normalizeURL] *)

Definition normalizeURL (raw : string) : string * option error :=
  match url_Parse raw with
  | inr err => (raw, Some err)
  | inl parsed =>
      let parsed := url.set_RawQuery "" parsed in
      let parsed := url.set_Fragment "" parsed in
      (URL_String parsed, None)
  end.

(** *** The handler and its state *)

(** The process state a request runs in: the global [cache], the store of
    image objects, and what has been written to the response so far. *)
Record World := mkWorld {
  cache : gmap string HashResponse;
  heap : Heap;
  written : list http.Reply
}.

(** [cache.Load(key)]. *)
Definition cache_Load (key : string) : Run World (option HashResponse) :=
  fun σ => (Ok (cache σ !! key), σ).

(** [cache.Store(key, value)]. *)
Definition cache_Store (key : string) (value : HashResponse)
  : Run World unit :=
  fun σ => (Ok tt, {| cache := <[key := value]> (cache σ);
                      heap := heap σ;
                      written := written σ |}).

Definition reply (r : http.Reply) : Run World unit :=
  fun σ => (Ok tt, {| cache := cache σ;
                      heap := heap σ;
                      written := written σ ++ [r] |}).

(** [http.Error(w, body, code)]. *)
Definition http_Error (body : string) (code : Z) : Run World unit :=
  reply (http.ErrorReply body code).

(** [writeJSON(w, data)]. *)
Definition writeJSON (data : HashResponse) : Run World unit :=
  reply (http.JSONReply data).

(** A computation on the store of images, run in the process state. *)
Definition on_heap {A} (m : Run Heap A) : Run World A :=
  fun σ =>
    let '(o, h) := m (heap σ) in
    (o, {| cache := cache σ; heap := h; written := written σ |}).

(** [err.Error()] on an [error] interface value: a nil dereference when
    [err] is nil. *)
Definition Error (err : option error) : outcome string :=
  match err with
  | Some e => Ok e
  | None => Panic nil_deref
  end.

(** [resp.StatusCode] through the pointer [resp]. *)
Definition StatusCode (resp : option http.Response) : outcome Z :=
  match resp with
  | Some r => Ok (http.StatusCode r)
  | None => Panic nil_deref
  end.

(** [io.ReadAll(resp.Body)] through the pointer [resp]. *)
Definition ReadAll_Body (resp : option http.Response)
  : outcome (list byte * option error) :=
  match resp with
  | Some r =>
      match http.Body r with
      | inl data => Ok (data, None)
      | inr err => Ok ([], Some err)
      end
  | None => Panic nil_deref
  end.

Definition dq : string := String (ascii_of_nat 34) EmptyString.

(** The body [{"error": "<what>", "details": "<details>"}]. *)
Definition error_body (what details : string) : string :=
  "{" +:+ dq +:+ "error" +:+ dq +:+ ": " +:+ dq +:+ what +:+ dq +:+ ", "
      +:+ dq +:+ "details" +:+ dq +:+ ": " +:+ dq +:+ details +:+ dq +:+ "}".

(** The end of [handleHash], lines 100 to 107, which both branches reach
    with the bytes and the key they resolved. *)
Definition hash_and_store (skinBytes : list byte) (cacheKey : string)
  : Run World unit :=
  fun σ =>
    match on_heap (computeHashes skinBytes) σ with
    | (Ok hashes, σ') =>
        (cache_Store cacheKey hashes ;; writeJSON hashes)%run σ'
    | (Err err, σ') =>
        http_Error (error_body "Failed to compute hashes" err)
          http.StatusInternalServerError σ'
    | (Panic msg, σ') => (Panic msg, σ')
    end.

Definition handleHash (r : http.Request) : Run World unit :=
  let url := http.query_url r in
  if bool_decide (url <> "") then
    let '(cleanedURL, err) := normalizeURL url in
    if bool_decide (err <> None) then
      (do details <- lift (Error err);
       http_Error (error_body "Invalid URL" details)
         http.StatusBadRequest)%run
    else
      let cacheKey := "url:" +:+ cleanedURL in
      (do hit <- cache_Load cacheKey;
       match hit with
       | Some val => writeJSON val
       | None =>
           let '(resp, err) := http_Get url in
           do failed <-
             (if bool_decide (err <> None) then ret true
              else do code <- lift (StatusCode resp);
                   ret (bool_decide (code <> 200)));
           if (failed : bool) then
             do details <- lift (Error err);
             http_Error (error_body "Failed to fetch image from URL" details)
               http.StatusBadRequest
           else
             do read <- lift (ReadAll_Body resp);
             let '(skinBytes, err) := read in
             if bool_decide (err <> None) then
               do details <- lift (Error err);
               http_Error
                 (error_body "Failed to read image from URL" details)
                 http.StatusInternalServerError
             else hash_and_store skinBytes cacheKey
       end)%run
  else
    match http.FormFile r with
    | inr err =>
        http_Error (error_body "Failed to get uploaded file" err)
          http.StatusBadRequest
    | inl file =>
        match file with
        | inr err =>
            http_Error (error_body "Failed to read uploaded file" err)
              http.StatusInternalServerError
        | inl skinBytes =>
            let cacheKey := "sha256:" +:+ sha256Hex skinBytes in
            (do hit <- cache_Load cacheKey;
             match hit with
             | Some val => writeJSON val
             | None => hash_and_store skinBytes cacheKey
             end)%run
        end
    end.

(** [recoverMiddleware(next)]: a panic of [next] is recovered and answered
    with status 500; the request then ends normally. *)
Definition recoverMiddleware (next : http.Request -> Run World unit)
  : http.Request -> Run World unit :=
  fun r σ =>
    match next r σ with
    | (Panic rec, σ') =>
        http_Error (error_body "Internal server error" rec)
          http.StatusInternalServerError σ'
    | res => res
    end.

(** *** [env.go]: the settings and [main] *)

(** What the process wrote through package [log]: a line of [log.Printf],
    or the operands of the [log.Fatal] it ended with. *)
Inductive log_entry :=
| Printed (text : string)
| Fatal (operands : list string).

(** The state of the process outside the handler: the global map [env]
    and the log. *)
Record Proc := mkProc {
  env : gmap string string;
  logged : list log_entry
}.

Definition log_Printf (text : string) : Run Proc unit :=
  fun ρ => (Ok tt, {| env := env ρ; logged := logged ρ ++ [Printed text] |}).

(** [log.Fatal(operands...)] writes the message and calls [os.Exit(1)]:
    nothing of the program runs after it.  The exit is the abrupt outcome
    [Err], which no caller in the program inspects. *)
Definition log_Fatal {A} (operands : list string) : Run Proc A :=
  fun ρ => (Err "exit status 1",
            {| env := env ρ; logged := logged ρ ++ [Fatal operands] |}).

(** [env[key] = value]. *)
Definition env_set (key value : string) : Run Proc unit :=
  fun ρ => (Ok tt, {| env := <[key := value]> (env ρ); logged := logged ρ |}).

(** [for x := range xs { body }] over a sequence. *)
Fixpoint for_each {St A} (xs : list A) (body : A -> Run St unit)
  : Run St unit :=
  match xs with
  | [] => ret tt
  | x :: rest => bind (body x) (fun _ => for_each rest body)
  end.

(** The body of the loop of [loadEnvironment] on one line. *)
Definition load_line (line : string) : Run Proc unit :=
  let line := strings_TrimSpace line in
  if strings_Contains line "=" then
    let parts := strings_SplitN_2 line "=" in
    (do key <- lift (index parts 0);
     do value <- lift (index parts 1);
     env_set (strings_TrimSpace key) (strings_TrimSpace value))%run
  else ret tt.

(** [loadEnvironment()], given what opening [.env] and copying it into
    the buffer return: an error of [os.Open], or the file with the text
    read or the error of [io.Copy]. *)
Definition loadEnvironment (dotenv : (string + error) + error)
  : Run Proc unit :=
  match dotenv with
  | inr err => log_Fatal ["Failed to open .env file:"; err]
  | inl file =>
      match file with
      | inr err => log_Fatal ["Failed to read .env file:"; err]
      | inl text =>
          let lines := strings_Split text newline in
          for_each lines load_line
      end
  end.

Definition getEnv (key : string) : Run Proc string :=
  fun ρ =>
    match env ρ !! key with
    | Some value => (Ok value, ρ)
    | None =>
        (Ok "",
         {| env := env ρ;
            logged := logged ρ
              ++ [Printed ("Warning: Environment variable " +:+ key
                           +:+ " not found" +:+ String newline "")] |})
    end.

(** What [http.ListenAndServe] is called with: the address, and the
    handlers registered with [http.HandleFunc] by then. *)
Record Server := mkServer {
  Addr : string;
  Handlers : list (string * (http.Request -> Run World unit))
}.

(** [main()] up to the call of [http.ListenAndServe], which serves until
    it fails. *)
Definition main (dotenv : (string + error) + error) : Run Proc Server :=
  (loadEnvironment dotenv ;;
   let handlers := [("/hash", recoverMiddleware handleHash)] in
   do host <- getEnv "HOST";
   do port <- getEnv "PORT";
   log_Printf ("Server running on http://" +:+ host +:+ ":" +:+ port) ;;
   do host <- getEnv "HOST";
   do port <- getEnv "PORT";
   ret {| Addr := host +:+ ":" +:+ port; Handlers := handlers |})%run.

(** The bindings a text holds, in order: for every line that contains an
    equals sign once trimmed, what is before the first one and what is
    after it, both trimmed. *)
Definition binding_of (line : string) : option (string * string) :=
  let line := strings_TrimSpace line in
  match strings_SplitN_2 line "=" with
  | [key; value] => Some (strings_TrimSpace key, strings_TrimSpace value)
  | _ => None
  end.

Definition bindings_of (text : string) : list (string * string) :=
  omap binding_of (strings_Split text newline).

(** The map after the bindings have been assigned in order. *)
Definition assign (bs : list (string * string)) (m : gmap string string)
  : gmap string string :=
  fold_left (fun m b => <[b.1 := b.2]> m) bs m.

(** The text of a list of bindings, one [key=value] line each. *)
Fixpoint render (bs : list (string * string)) : string :=
  match bs with
  | [] => EmptyString
  | (key, value) :: rest =>
      key +:+ "=" +:+ value +:+ String newline (render rest)
  end.

(** ** The normalised pixel buffer of the specification *)

(** Four bytes per pixel; the colour of a pixel whose alpha sample is 0 is
    blanked, every other pixel is kept. *)
Fixpoint normalize_pixels (pix : list byte) : list byte :=
  match pix with
  | r :: g :: b :: a :: rest =>
      (if Byte.eqb a x00 then [x00; x00; x00; a] else [r; g; b; a])
        ++ normalize_pixels rest
  | _ => pix
  end.

(** The buffer once the first [k] pixels have been visited. *)
Definition blank_prefix (k : nat) (pix : list byte) : list byte :=
  normalize_pixels (take (4 * k) pix) ++ drop (4 * k) pix.

(** The number a 4-byte big-endian window stands for. *)
Definition BigEndian_Uint32 (b : list byte) : Z :=
  match b with
  | [b0; b1; b2; b3] =>
      Z_of_byte b0 * 2 ^ 24 + Z_of_byte b1 * 2 ^ 16 + Z_of_byte b2 * 2 ^ 8
      + Z_of_byte b3
  | _ => 0
  end.

(** The sample of channel [c] (0 to 3) of the pixel at [(x, y)] in a
    row-major buffer of width [w]. *)
Definition sample (pix : list byte) (w x y : Z) (c : nat) : option byte :=
  pix !! (Z.to_nat (4 * (y * w + x)) + c)%nat.

(** A character of ["0123456789abcdef"]. *)
Definition is_lower_hex (c : ascii) : bool :=
  let n := nat_of_ascii c in
  ((48 <=? n)%nat && (n <=? 57)%nat) || ((97 <=? n)%nat && (n <=? 102)%nat).

Fixpoint all_chars (p : ascii -> bool) (s : string) : bool :=
  match s with
  | EmptyString => true
  | String c rest => p c && all_chars p rest
  end.

(** A string of exactly [n] lower-case hexadecimal digits. *)
Definition lower_hex_of_length (n : nat) (s : string) : Prop :=
  String.length s = n /\ all_chars is_lower_hex s = true.

(** The first [n] characters of a string, all of it when it is shorter. *)
Fixpoint first_chars (n : nat) (s : string) : string :=
  match n, s with
  | S n', String c rest => String c (first_chars n' rest)
  | _, _ => EmptyString
  end.

(** The image [image.NewNRGBA] allocates for the bounds [r]. *)
Definition blank_NRGBA (r : image.Rectangle) : image.NRGBA :=
  {| image.Pix := replicate (Z.to_nat (4 * image.Dx r * image.Dy r)) x00;
     image.Stride := 4 * image.Dx r;
     image.Rect := r |}.

(** The four-channel copy of a decoded image, as [draw.Draw] fills it. *)
Definition converted (img : Image) : image.NRGBA :=
  let b := Image_Bounds img in
  draw_Draw (blank_NRGBA b) b img (image.Min b) draw_Src.

(** Bounds as the PNG decoder produces them: anchored at the origin, with
    a sample count that fits an [int]. *)
Definition png_bounds (r : image.Rectangle) : Prop :=
  image.Min r = image.mkPoint 0 0 /\ 0 <= image.Dx r /\ 0 <= image.Dy r
  /\ 4 * image.Dx r * image.Dy r <= image.MaxInt.

(** [draw.Draw] writes samples and leaves the geometry of its destination
    as it was. *)
Definition same_shape (p q : image.NRGBA) : Prop :=
  length (image.Pix p) = length (image.Pix q)
  /\ image.Stride p = image.Stride q /\ image.Rect p = image.Rect q.

(** What the program relies on for a decoded PNG [img]. *)
Definition well_decoded (img : Image) : Prop :=
  png_bounds (Image_Bounds img)
  /\ same_shape (converted img) (blank_NRGBA (Image_Bounds img)).

(** The header of the hashed buffer. *)
Definition header_of (img : Image) : list byte :=
  PutUint32 (uint32 (image.Dx (Image_Bounds img)))
    ++ PutUint32 (uint32 (image.Dy (Image_Bounds img))).

(** The image [n] with its samples replaced. *)
Definition with_Pix (n : image.NRGBA) (pix : list byte) : image.NRGBA :=
  {| image.Pix := pix; image.Stride := image.Stride n;
     image.Rect := image.Rect n |}.

(** The samples of the copy after the loops. *)
Definition normalized (img : Image) : list byte :=
  normalize_pixels (image.Pix (converted img)).

(** The buffer hashed into [alpha_normalized_hash]. *)
Definition alpha_buffer (img : Image) : list byte :=
  header_of img ++ normalized img.

(** The response for a decoded image and the bytes of its re-encoding. *)
Definition fingerprint_of (img : Image) (encoded : list byte)
  : HashResponse :=
  {| Standard := hashBuffer encoded;
     AlphaNormalized := hashBuffer (alpha_buffer img);
     AlphaNormalizedCompact := first_chars 16 (hashBuffer (alpha_buffer img)) |}.

(** The store after a run on [img]: the decoded image and its normalised
    copy, in two fresh cells. *)
Definition final_heap (h : Heap) (img : Image) : Heap :=
  h ++ [ObjImage img; ObjNRGBA (with_Pix (converted img) (normalized img))].

(** *** The loops seen from inside the copy

    The same statements as in [blank_if_transparent], run on the value of
    one NRGBA image instead of on the store that holds it. *)

Definition cell_PixOffset (x y : Z) : Run image.NRGBA Z :=
  fun n => (Ok (image.PixOffset n x y), n).

Definition cell_get (i : Z) : Run image.NRGBA byte :=
  fun n => (index (image.Pix n) i, n).

Definition cell_set (i : Z) (v : byte) : Run image.NRGBA unit :=
  fun n =>
    match set_index (image.Pix n) i v with
    | Ok pix => (Ok tt, with_Pix n pix)
    | Err e => (Err e, n)
    | Panic msg => (Panic msg, n)
    end.

Definition cell_blank (x y : Z) : Run image.NRGBA unit :=
  (do i <- cell_PixOffset x y;
   do a <- cell_get (i + 3);
   if Byte.eqb a x00 then
     cell_set (i + 0) x00 ;; cell_set (i + 1) x00 ;; cell_set (i + 2) x00
   else ret tt)%run.

Definition cell_loops (width height : Z) : Run image.NRGBA unit :=
  for_range height (fun y => for_range width (fun x => cell_blank x y)).

(** A computation on the image stored at [p], run on the store. *)
Definition at_cell {A} (p : ptr) (m : Run image.NRGBA A) : Run Heap A :=
  fun h =>
    match h !! p with
    | Some (ObjNRGBA n) =>
        let '(o, n') := m n in (o, <[p := ObjNRGBA n']> h)
    | _ => (Panic nil_deref, h)
    end.

(** The outcome of [computeHashes] on a decoded PNG and the cells it adds
    to the store, as a function of the decoded image. *)
Definition engine_png (img : Image) : outcome HashResponse * list object :=
  let b := Image_Bounds img in
  match image.NewNRGBA b with
  | Ok _ =>
      let '(o, n) := cell_loops (image.Dx b) (image.Dy b) (converted img) in
      let cells := [ObjImage img; ObjNRGBA n] in
      match o with
      | Ok _ =>
          match imaging_Encode img imaging_PNG with
          | inl encoded =>
              let alpha := hashBuffer (header_of img ++ image.Pix n) in
              (Ok {| Standard := hashBuffer encoded;
                     AlphaNormalized := alpha;
                     AlphaNormalizedCompact := first_chars 16 alpha |}, cells)
          | inr err => (Err err, cells)
          end
      | Err e => (Err e, cells)
      | Panic msg => (Panic msg, cells)
      end
  | Err e => (Err e, [ObjImage img])
  | Panic msg => (Panic msg, [ObjImage img])
  end.

(** Two row-major buffers of width [w] and height [hh] that show the same
    picture: at every pixel the alpha samples agree, and so do the colour
    samples unless that alpha is 0. *)
Definition same_visible (w hh : Z) (p q : list byte) : Prop :=
  forall x y, 0 <= x < w -> 0 <= y < hh ->
    exists a,
      sample p w x y 3 = Some a /\ sample q w x y 3 = Some a
      /\ (a <> x00 ->
          forall c, (c < 3)%nat -> sample p w x y c = sample q w x y c).

(** *** Cache keys, as the specification derives them *)

(** A URL with its query string and its fragment stripped. *)
Definition strip_query_fragment (u : url.URL) : url.URL :=
  url.set_Fragment "" (url.set_RawQuery "" u).

(** The key of a URL source: ["url:"] and the stripped URL re-serialised. *)
Definition url_cache_key (raw : string) : option string :=
  match url_Parse raw with
  | inl parsed => Some ("url:" +:+ URL_String (strip_query_fragment parsed))
  | inr _ => None
  end.

(** The key of an upload: ["sha256:"] and the hex digest of the raw bytes. *)
Definition upload_cache_key (raw : list byte) : string :=
  "sha256:" +:+ hex_EncodeToString (sha256.Sum256 raw).

(** The key of a request, when its source can be resolved to one. *)
Definition request_cache_key (r : http.Request) : option string :=
  if bool_decide (http.query_url r <> "") then url_cache_key (http.query_url r)
  else match http.FormFile r with
       | inl (inl raw) => Some (upload_cache_key raw)
       | _ => None
       end.

(** Two parsed URLs that differ in query string and fragment at most. *)
Definition same_but_query_fragment (u v : url.URL) : Prop :=
  url.Scheme u = url.Scheme v /\ url.Opaque u = url.Opaque v
  /\ url.User u = url.User v /\ url.Host u = url.Host v
  /\ url.Path u = url.Path v /\ url.RawPath u = url.RawPath v
  /\ url.OmitHost u = url.OmitHost v /\ url.ForceQuery u = url.ForceQuery v
  /\ url.RawFragment u = url.RawFragment v.

(** The state after one more write to the response. *)
Definition add_reply (σ : World) (r : http.Reply) : World :=
  {| cache := cache σ; heap := heap σ; written := written σ ++ [r] |}.

(** How a run of the handler can end. *)
Inductive ending (r : http.Request) (σ : World)
  : outcome unit * World -> Prop :=
| ends_with_error body code σ' :
    cache σ' = cache σ ->
    written σ' = written σ ++ [http.ErrorReply body code] ->
    ending r σ (Ok tt, σ')
| ends_with_panic msg σ' :
    cache σ' = cache σ ->
    written σ' = written σ ->
    ending r σ (Panic msg, σ')
| ends_with_hit key val :
    request_cache_key r = Some key ->
    cache σ !! key = Some val ->
    ending r σ (Ok tt, add_reply σ (http.JSONReply val))
| ends_with_store key skinBytes hashes h' :
    request_cache_key r = Some key ->
    cache σ !! key = None ->
    computeHashes skinBytes (heap σ) = (Ok hashes, h') ->
    ending r σ
      (Ok tt, {| cache := <[key := hashes]> (cache σ);
                 heap := h';
                 written := written σ ++ [http.JSONReply hashes] |}).

(** The value a list of bindings gives a key: that of its last binding. *)
Definition last_bound (bs : list (string * string)) (key : string)
  : option string :=
  snd <$> last (filter (fun b => b.1 = key) bs).

(** A binding that survives being written as a line and read back: the
    key has no equals sign, neither part has a line feed, and trimming
    changes neither part nor the line. *)
Definition plain_binding (b : string * string) : Prop :=
  strings_Contains b.1 "=" = false
  /\ strings_Contains b.1 newline = false
  /\ strings_Contains b.2 newline = false
  /\ strings_TrimSpace b.1 = b.1
  /\ strings_TrimSpace b.2 = b.2
  /\ strings_TrimSpace (b.1 +:+ "=" +:+ b.2) = b.1 +:+ "=" +:+ b.2.

(** The warning of [getEnv] for a key the map lacks, and none otherwise. *)
Definition warning_for (m : gmap string string) (key : string)
  : list log_entry :=
  match m !! key with
  | Some _ => []
  | None => [Printed ("Warning: Environment variable " +:+ key
                      +:+ " not found" +:+ String newline "")]
  end.

(** A response as [computeHashes] builds them: two digests in lower-case
    hexadecimal and the first 16 characters of the second. *)
Definition well_formed (v : HashResponse) : Prop :=
  lower_hex_of_length 64 (Standard v)
  /\ lower_hex_of_length 64 (AlphaNormalized v)
  /\ lower_hex_of_length 16 (AlphaNormalizedCompact v)
  /\ AlphaNormalizedCompact v = first_chars 16 (AlphaNormalized v).

(** The value of a hexadecimal digit, and the bytes a string of digits
    stands for, two digits to a byte. *)
Definition hex_value (c : ascii) : Z :=
  let n := Z.of_nat (nat_of_ascii c) in
  if bool_decide (n <= 57) then n - 48 else n - 87.

Fixpoint hex_bytes (s : string) : list byte :=
  match s with
  | String hi (String lo rest) =>
      byte_of_Z (hex_value hi * 16 + hex_value lo) :: hex_bytes rest
  | _ => []
  end.

(** *** The two statements on decoded pixels, as the specification has them

    [At img x y] is the decoded colour of the pixel, what [img.At(x, y)]
    returns. *)

(** The buffer hashed for [data] is the header followed by the decoded
    pixels, four bytes each in row-major order: blanked where the decoded
    alpha is 0, the decoded R, G, B, A otherwise. *)
Definition hashes_decoded_pixels (At : Image -> Z -> Z -> color.NRGBA)
    (data : list byte) : Prop :=
  forall (h h' : Heap) res,
    computeHashes data h = (Ok res, h') ->
    exists img format pix,
      image_Decode data = inl (img, format)
      /\ AlphaNormalized res = hashBuffer (header_of img ++ pix)
      /\ Z.of_nat (length pix)
         = 4 * image.Dx (Image_Bounds img) * image.Dy (Image_Bounds img)
      /\ forall x y,
           0 <= x < image.Dx (Image_Bounds img) ->
           0 <= y < image.Dy (Image_Bounds img) ->
           let w := image.Dx (Image_Bounds img) in
           let c := At img x y in
           sample pix w x y 3 = Some (color.A c)
           /\ (color.A c = x00 ->
               sample pix w x y 0 = Some x00
               /\ sample pix w x y 1 = Some x00
               /\ sample pix w x y 2 = Some x00)
           /\ (color.A c <> x00 ->
               sample pix w x y 0 = Some (color.R c)
               /\ sample pix w x y 1 = Some (color.G c)
               /\ sample pix w x y 2 = Some (color.B c)).

(** [draw.Draw] has copied the decoded pixels of [img] as they are. *)
Definition exact_copy (At : Image -> Z -> Z -> color.NRGBA) (img : Image)
  : Prop :=
  forall x y,
    0 <= x < image.Dx (Image_Bounds img) ->
    0 <= y < image.Dy (Image_Bounds img) ->
    let w := image.Dx (Image_Bounds img) in
    let copy := image.Pix (converted img) in
    sample copy w x y 0 = Some (color.R (At img x y))
    /\ sample copy w x y 1 = Some (color.G (At img x y))
    /\ sample copy w x y 2 = Some (color.B (At img x y))
    /\ sample copy w x y 3 = Some (color.A (At img x y)).

(** The decoded pixels of [img2] are those of [img1], except that where
    [img1] has alpha 0, under any colour, [img2] has the colour zeroed. *)
Definition hidden_colour_zeroed (At : Image -> Z -> Z -> color.NRGBA)
    (img1 img2 : Image) : Prop :=
  forall x y,
    0 <= x < image.Dx (Image_Bounds img1) ->
    0 <= y < image.Dy (Image_Bounds img1) ->
    (color.A (At img1 x y) = x00 ->
     At img2 x y = color.mkNRGBA x00 x00 x00 x00)
    /\ (color.A (At img1 x y) <> x00 -> At img2 x y = At img1 x y).

(** Two such images of equal dimensions get the same
    [alpha_normalized_hash]. *)
Definition hidden_colour_is_ignored (At : Image -> Z -> Z -> color.NRGBA)
    (data1 data2 : list byte) : Prop :=
  forall (h1 h2 h1' h2' : Heap) res1 res2 img1 img2 format1 format2,
    image_Decode data1 = inl (img1, format1) ->
    image_Decode data2 = inl (img2, format2) ->
    computeHashes data1 h1 = (Ok res1, h1') ->
    computeHashes data2 h2 = (Ok res2, h2') ->
    image.Dx (Image_Bounds img1) = image.Dx (Image_Bounds img2) ->
    image.Dy (Image_Bounds img1) = image.Dy (Image_Bounds img2) ->
    hidden_colour_zeroed At img1 img2 ->
    AlphaNormalized res1 = AlphaNormalized res2.

(** * Properties *)

(** ** Pixel buffers *)

Lemma list_ind4 {A} (P : list A -> Prop) :
  P [] -> (forall a, P [a]) -> (forall a b, P [a; b]) ->
  (forall a b c, P [a; b; c]) ->
  (forall a b c d rest, P rest -> P (a :: b :: c :: d :: rest)) ->
  forall l, P l.
Proof.
  intros H0 H1 H2 H3 H4.
  fix IH 1. intros [|a [|b [|c [|d rest]]]];
    [apply H0 | apply H1 | apply H2 | apply H3 | apply H4; apply IH].
Qed.

Lemma normalize_pixels_length pix :
  length (normalize_pixels pix) = length pix.
Proof.
  induction pix as [| | | |r g b a rest IH] using list_ind4; try reflexivity.
  cbn [normalize_pixels]. rewrite length_app, IH.
  destruct (Byte.eqb a x00); reflexivity.
Qed.

Lemma normalize_pixels_app k p1 p2 :
  length p1 = (4 * k)%nat ->
  normalize_pixels (p1 ++ p2) = normalize_pixels p1 ++ normalize_pixels p2.
Proof.
  revert p1. induction k as [|k IH]; intros p1 Hlen.
  - destruct p1; [reflexivity | discriminate].
  - destruct p1 as [|r [|g [|b [|a rest]]]]; simpl in Hlen; try lia.
    cbn [normalize_pixels app]. rewrite (IH rest) by lia.
    destruct (Byte.eqb a x00); reflexivity.
Qed.

Lemma blank_prefix_0 pix : blank_prefix 0 pix = pix.
Proof. reflexivity. Qed.

Lemma blank_prefix_all k pix :
  length pix = (4 * k)%nat -> blank_prefix k pix = normalize_pixels pix.
Proof.
  intros Hlen. unfold blank_prefix.
  rewrite take_ge, drop_ge by lia. apply app_nil_r.
Qed.

Lemma blank_prefix_length k pix : length (blank_prefix k pix) = length pix.
Proof.
  unfold blank_prefix.
  rewrite length_app, normalize_pixels_length, <- length_app, take_drop.
  reflexivity.
Qed.

(** The window of the [k]-th pixel, when the buffer holds it. *)
Lemma pixel_window k (pix : list byte) :
  (4 * S k <= length pix)%nat ->
  exists front r g b a rest,
    length front = (4 * k)%nat /\
    pix = front ++ r :: g :: b :: a :: rest /\
    blank_prefix k pix = normalize_pixels front ++ r :: g :: b :: a :: rest /\
    blank_prefix (S k) pix =
      normalize_pixels front
        ++ (if Byte.eqb a x00 then [x00; x00; x00; a] else [r; g; b; a])
        ++ rest.
Proof.
  intros Hlen.
  assert (Hsplit : pix = take (4 * k) pix ++ drop (4 * k) pix)
    by (symmetry; apply take_drop).
  assert (Hfront : length (take (4 * k) pix) = (4 * k)%nat)
    by (rewrite length_take; lia).
  assert (Hback : (4 <= length (drop (4 * k) pix))%nat)
    by (rewrite length_drop; lia).
  destruct (drop (4 * k) pix) as [|r [|g [|b [|a rest]]]] eqn:Hdrop;
    simpl in Hback; try lia.
  exists (take (4 * k) pix), r, g, b, a, rest.
  split; [exact Hfront|]. split; [exact Hsplit|]. split.
  - unfold blank_prefix. rewrite Hdrop. reflexivity.
  - unfold blank_prefix.
    replace (4 * S k)%nat with (4 * k + 4)%nat by lia.
    rewrite <- take_take_drop, <- drop_drop, Hdrop.
    cbn [take drop].
    rewrite (normalize_pixels_app k) by exact Hfront.
    rewrite <- app_assoc. f_equal.
    cbn [normalize_pixels]. rewrite <- app_assoc. reflexivity.
Qed.

Lemma window_alpha k (front : list byte) r g b a rest :
  length front = (4 * k)%nat ->
  index (front ++ r :: g :: b :: a :: rest) (Z.of_nat (4 * k) + 3) = Ok a.
Proof.
  intros Hlen. unfold index.
  rewrite bool_decide_eq_true_2 by lia.
  replace (Z.to_nat (Z.of_nat (4 * k) + 3)) with (length front + 3)%nat by lia.
  rewrite lookup_app_r by lia.
  replace (length front + 3 - length front)%nat with 3%nat by lia.
  reflexivity.
Qed.

Lemma window_blank k (front : list byte) r g b a rest :
  length front = (4 * k)%nat ->
  exists p1 p2,
    set_index (front ++ r :: g :: b :: a :: rest) (Z.of_nat (4 * k) + 0) x00
      = Ok p1 /\
    set_index p1 (Z.of_nat (4 * k) + 1) x00 = Ok p2 /\
    set_index p2 (Z.of_nat (4 * k) + 2) x00
      = Ok (front ++ [x00; x00; x00; a] ++ rest).
Proof.
  intros Hlen.
  exists (front ++ x00 :: g :: b :: a :: rest),
         (front ++ x00 :: x00 :: b :: a :: rest).
  unfold set_index.
  rewrite !bool_decide_eq_true_2
    by (rewrite length_app; cbn [length]; lia).
  replace (Z.to_nat (Z.of_nat (4 * k) + 0)) with (length front + 0)%nat by lia.
  replace (Z.to_nat (Z.of_nat (4 * k) + 1)) with (length front + 1)%nat by lia.
  replace (Z.to_nat (Z.of_nat (4 * k) + 2)) with (length front + 2)%nat by lia.
  rewrite !insert_app_r. repeat split; reflexivity.
Qed.

(** ** The store of images *)

Lemma load_NRGBA_at (h : Heap) rgba m :
  (rgba < length h)%nat ->
  load_NRGBA rgba (<[rgba := ObjNRGBA m]> h)
  = (Ok m, <[rgba := ObjNRGBA m]> h).
Proof.
  intros Hlt. unfold load_NRGBA.
  rewrite list_lookup_insert_eq by exact Hlt. reflexivity.
Qed.

Lemma PixOffset_at (h : Heap) rgba m x y :
  (rgba < length h)%nat ->
  PixOffset rgba x y (<[rgba := ObjNRGBA m]> h)
  = (Ok (image.PixOffset m x y), <[rgba := ObjNRGBA m]> h).
Proof.
  intros Hlt. unfold PixOffset, bind. rewrite load_NRGBA_at by exact Hlt.
  reflexivity.
Qed.

Lemma Pix_get_at (h : Heap) rgba m i :
  (rgba < length h)%nat ->
  Pix_get rgba i (<[rgba := ObjNRGBA m]> h)
  = (index (image.Pix m) i, <[rgba := ObjNRGBA m]> h).
Proof.
  intros Hlt. unfold Pix_get, bind, lift. rewrite load_NRGBA_at by exact Hlt.
  destruct (index (image.Pix m) i); reflexivity.
Qed.

Lemma Pix_set_at (h : Heap) rgba m i v pix :
  (rgba < length h)%nat ->
  set_index (image.Pix m) i v = Ok pix ->
  Pix_set rgba i v (<[rgba := ObjNRGBA m]> h)
  = (Ok tt, <[rgba := ObjNRGBA (with_Pix m pix)]> h).
Proof.
  intros Hlt Hset. unfold Pix_set, bind, lift, store.
  rewrite load_NRGBA_at by exact Hlt. rewrite Hset.
  rewrite list_insert_insert_eq. reflexivity.
Qed.

(** One visit of the loop body moves the blanked prefix one pixel on and
    touches no other cell of the store. *)
Lemma blank_if_transparent_step (h : Heap) rgba m k x y pix0 :
  (rgba < length h)%nat ->
  image.PixOffset m x y = Z.of_nat (4 * k) ->
  image.Pix m = blank_prefix k pix0 ->
  (4 * S k <= length pix0)%nat ->
  blank_if_transparent rgba x y (<[rgba := ObjNRGBA m]> h)
  = (Ok tt, <[rgba := ObjNRGBA (with_Pix m (blank_prefix (S k) pix0))]> h).
Proof.
  intros Hlt Hoff Hpix Hlen.
  destruct (pixel_window k pix0 Hlen)
    as (front & r & g & b & a & rest & Hfront & _ & Hk & HSk).
  assert (Hnf : length (normalize_pixels front) = (4 * k)%nat)
    by (rewrite normalize_pixels_length; exact Hfront).
  unfold blank_if_transparent.
  unfold bind at 1. rewrite PixOffset_at by exact Hlt. rewrite Hoff.
  unfold bind at 1. rewrite Pix_get_at by exact Hlt.
  rewrite Hpix, Hk, (window_alpha k) by exact Hnf.
  rewrite HSk.
  destruct (Byte.eqb a x00) eqn:Ha.
  - destruct (window_blank k (normalize_pixels front) r g b a rest Hnf)
      as (p1 & p2 & H1 & H2 & H3).
    unfold bind.
    rewrite (Pix_set_at h rgba m _ _ p1) by (rewrite ?Hpix, ?Hk; auto).
    rewrite (Pix_set_at h rgba (with_Pix m p1) _ _ p2 Hlt H2).
    rewrite (Pix_set_at h rgba (with_Pix (with_Pix m p1) p2) _ _ _ Hlt H3).
    reflexivity.
  - unfold ret. f_equal. f_equal. f_equal.
    destruct m as [mp ms mr]. unfold with_Pix. cbn in *.
    rewrite Hpix, Hk. reflexivity.
Qed.

(** ** Loops *)

Lemma for_from_invariant {St} (I : Z -> St -> Prop) (body : Z -> Run St unit)
    count i s :
  I i s ->
  (forall j t, i <= j < i + Z.of_nat count -> I j t ->
     exists t', body j t = (Ok tt, t') /\ I (j + 1) t') ->
  exists s', for_from count i body s = (Ok tt, s')
             /\ I (i + Z.of_nat count) s'.
Proof.
  revert i s. induction count as [|count IH]; intros i s Hi Hstep.
  - exists s. split; [reflexivity|]. rewrite Z.add_0_r. exact Hi.
  - destruct (Hstep i s ltac:(lia) Hi) as (t & Hbody & Ht).
    destruct (IH (i + 1) t Ht) as (s' & Hrun & Hs').
    { intros j u Hj. apply Hstep. lia. }
    exists s'. split.
    + cbn [for_from]. unfold bind. rewrite Hbody. exact Hrun.
    + replace (i + Z.of_nat (S count)) with (i + 1 + Z.of_nat count) by lia.
      exact Hs'.
Qed.

Lemma for_range_invariant {St} (I : Z -> St -> Prop) (body : Z -> Run St unit)
    n s :
  0 <= n ->
  I 0 s ->
  (forall j t, 0 <= j < n -> I j t ->
     exists t', body j t = (Ok tt, t') /\ I (j + 1) t') ->
  exists s', for_range n body s = (Ok tt, s') /\ I n s'.
Proof.
  intros Hn H0 Hstep.
  destruct (for_from_invariant I body (Z.to_nat n) 0 s H0) as (s' & Hrun & Hs').
  { intros j t Hj. apply Hstep. lia. }
  exists s'. split; [exact Hrun|].
  replace n with (0 + Z.of_nat (Z.to_nat n)) at 1 by lia. exact Hs'.
Qed.

(** The two nested loops of [computeHashes] turn the samples of the copy
    into their normalised form, and leave every other object alone. *)
Lemma blank_loops (h : Heap) rgba m w hh :
  (rgba < length h)%nat ->
  0 <= w -> 0 <= hh ->
  image.Stride m = 4 * w ->
  image.Min (image.Rect m) = image.mkPoint 0 0 ->
  length (image.Pix m) = Z.to_nat (4 * w * hh) ->
  for_range hh (fun y =>
    for_range w (fun x => blank_if_transparent rgba x y))
    (<[rgba := ObjNRGBA m]> h)
  = (Ok tt,
     <[rgba := ObjNRGBA (with_Pix m (normalize_pixels (image.Pix m)))]> h).
Proof.
  intros Hlt Hw Hh Hstride Hmin Hlen.
  set (visited k :=
         <[rgba := ObjNRGBA (with_Pix m
             (blank_prefix (Z.to_nat k) (image.Pix m)))]> h).
  destruct (for_range_invariant (fun y s => s = visited (y * w))
              (fun y => for_range w (fun x => blank_if_transparent rgba x y))
              hh (<[rgba := ObjNRGBA m]> h) Hh) as (s' & Hrun & Hs').
  - unfold visited. cbn [Z.mul Z.to_nat]. rewrite blank_prefix_0.
    destruct m; reflexivity.
  - intros y t Hy ->.
    destruct (for_range_invariant (fun x s => s = visited (y * w + x))
                (fun x => blank_if_transparent rgba x y)
                w (visited (y * w)) Hw) as (t' & Hrow & Ht').
    + rewrite Z.add_0_r. reflexivity.
    + intros x u Hx ->. eexists. split; [|reflexivity].
      unfold visited.
      rewrite (blank_if_transparent_step h rgba _ (Z.to_nat (y * w + x))
                 x y (image.Pix m)).
      * replace (Z.to_nat (y * w + (x + 1)))
          with (S (Z.to_nat (y * w + x))) by nia.
        reflexivity.
      * exact Hlt.
      * unfold image.PixOffset, with_Pix. cbn. rewrite Hstride, Hmin. cbn.
        nia.
      * reflexivity.
      * rewrite Hlen. nia.
    + exists t'. split; [exact Hrow|]. rewrite Ht'. f_equal. lia.
  - rewrite Hrun, Hs'. unfold visited.
    rewrite blank_prefix_all; [reflexivity|]. rewrite Hlen. nia.
Qed.

(** ** Digests *)

Lemma hex_EncodeToString_length src :
  String.length (hex_EncodeToString src) = (2 * length src)%nat.
Proof.
  induction src as [|v rest IH]; [reflexivity|].
  cbn [hex_EncodeToString String.length length]. rewrite IH. lia.
Qed.

Lemma hex_EncodeToString_lower src :
  all_chars is_lower_hex (hex_EncodeToString src) = true.
Proof.
  induction src as [|v rest IH]; [reflexivity|].
  cbn [hex_EncodeToString all_chars]. rewrite IH.
  destruct v; reflexivity.
Qed.

Lemma Sum256_length data : length (sha256.Sum256 data) = 32%nat.
Proof. unfold sha256.Sum256. rewrite !length_app. reflexivity. Qed.

Lemma hashBuffer_hex data : lower_hex_of_length 64 (hashBuffer data).
Proof.
  split.
  - unfold hashBuffer. rewrite hex_EncodeToString_length, Sum256_length.
    reflexivity.
  - apply hex_EncodeToString_lower.
Qed.

Lemma substring_first_chars n s :
  String.substring 0 n s = first_chars n s.
Proof.
  revert s. induction n as [|n IH]; intros [|c rest]; cbn; try reflexivity.
  rewrite IH. reflexivity.
Qed.

Lemma first_chars_length n s :
  (n <= String.length s)%nat -> String.length (first_chars n s) = n.
Proof.
  revert s. induction n as [|n IH]; intros [|c rest] Hn; cbn in *;
    try reflexivity; try lia.
  rewrite IH by lia. reflexivity.
Qed.

Lemma first_chars_all p n s :
  all_chars p s = true -> all_chars p (first_chars n s) = true.
Proof.
  revert s. induction n as [|n IH]; intros [|c rest] Hs; cbn in *;
    try reflexivity.
  apply andb_true_iff in Hs as [Hc Hrest].
  rewrite Hc, IH by exact Hrest. reflexivity.
Qed.

Lemma slice_to_hashBuffer data :
  slice_to (hashBuffer data) 16 = Ok (first_chars 16 (hashBuffer data)).
Proof.
  unfold slice_to. destruct (hashBuffer_hex data) as [Hlen _].
  rewrite bool_decide_eq_true_2 by (rewrite Hlen; lia).
  rewrite substring_first_chars. reflexivity.
Qed.

(** ** The run of [computeHashes] on a decoded PNG *)

Lemma load_Image_lookup (h : Heap) p img :
  h !! p = Some (ObjImage img) -> load_Image p h = (Ok img, h).
Proof. intros H. unfold load_Image. rewrite H. reflexivity. Qed.

Lemma load_NRGBA_lookup (h : Heap) p n :
  h !! p = Some (ObjNRGBA n) -> load_NRGBA p h = (Ok n, h).
Proof. intros H. unfold load_NRGBA. rewrite H. reflexivity. Qed.

Lemma NewNRGBA_png r :
  png_bounds r -> image.NewNRGBA r = Ok (blank_NRGBA r).
Proof.
  intros (_ & Hx & Hy & Hfit). unfold image.NewNRGBA.
  rewrite bool_decide_eq_true_2 by auto. reflexivity.
Qed.

(** ** The loops act on the copy alone *)

Lemma at_cell_bind {A B} p (m : Run image.NRGBA A)
    (k : A -> Run image.NRGBA B) (h : Heap) :
  at_cell p (bind m k) h = bind (at_cell p m) (fun a => at_cell p (k a)) h.
Proof.
  unfold at_cell at 1 2, bind.
  destruct (h !! p) as [[img|n]|] eqn:Hp; try reflexivity.
  destruct (m n) as [[a|e|msg] n1]; try reflexivity.
  unfold at_cell.
  rewrite list_lookup_insert_eq by (eapply lookup_lt_Some; exact Hp).
  destruct (k a n1) as [o n2]. rewrite list_insert_insert_eq. reflexivity.
Qed.

Lemma at_cell_present {A} p (m : Run image.NRGBA A) (h : Heap) n :
  h !! p = Some (ObjNRGBA n) ->
  at_cell p m h = (fst (m n), <[p := ObjNRGBA (snd (m n))]> h).
Proof. intros Hp. unfold at_cell. rewrite Hp. destruct (m n); reflexivity. Qed.

Lemma PixOffset_at_cell rgba x y (h : Heap) :
  PixOffset rgba x y h = at_cell rgba (cell_PixOffset x y) h.
Proof.
  unfold PixOffset, at_cell, bind, load_NRGBA, cell_PixOffset, ret.
  destruct (h !! rgba) as [[img|n]|] eqn:Hp; try reflexivity.
  rewrite list_insert_id by exact Hp. reflexivity.
Qed.

Lemma Pix_get_at_cell rgba i (h : Heap) :
  Pix_get rgba i h = at_cell rgba (cell_get i) h.
Proof.
  unfold Pix_get, at_cell, bind, load_NRGBA, cell_get, lift.
  destruct (h !! rgba) as [[img|n]|] eqn:Hp; try reflexivity.
  rewrite list_insert_id by exact Hp.
  destruct (index (image.Pix n) i); reflexivity.
Qed.

Lemma Pix_set_at_cell rgba i v (h : Heap) :
  Pix_set rgba i v h = at_cell rgba (cell_set i v) h.
Proof.
  unfold Pix_set, at_cell, bind, load_NRGBA, cell_set, lift, store.
  destruct (h !! rgba) as [[img|n]|] eqn:Hp; try reflexivity.
  destruct (set_index (image.Pix n) i v); try reflexivity;
    rewrite list_insert_id by exact Hp; reflexivity.
Qed.

Lemma bind_ext {St A B} (m m' : Run St A) (k k' : A -> Run St B) s :
  m s = m' s ->
  (forall a t, m' s = (Ok a, t) -> k a t = k' a t) ->
  bind m k s = bind m' k' s.
Proof.
  intros Hm Hk. unfold bind. rewrite Hm.
  destruct (m' s) as [[a|e|msg] t]; auto.
Qed.

Lemma at_cell_Ok {A} p (m : Run image.NRGBA A) (h t : Heap) a :
  at_cell p m h = (Ok a, t) -> exists n, t !! p = Some (ObjNRGBA n).
Proof.
  unfold at_cell. destruct (h !! p) as [[img|n]|] eqn:Hp; try discriminate.
  destruct (m n) as [o n']. intros [= _ <-]. exists n'.
  apply list_lookup_insert_eq. eapply lookup_lt_Some; exact Hp.
Qed.

Lemma at_cell_ret {A} p (a : A) (h : Heap) n :
  h !! p = Some (ObjNRGBA n) -> at_cell p (ret a) h = ret a h.
Proof.
  intros Hp. unfold at_cell, ret. rewrite Hp.
  rewrite list_insert_id by exact Hp. reflexivity.
Qed.

Lemma blank_if_transparent_at_cell rgba x y (h : Heap) :
  blank_if_transparent rgba x y h = at_cell rgba (cell_blank x y) h.
Proof.
  unfold blank_if_transparent, cell_blank.
  rewrite at_cell_bind. apply bind_ext; [apply PixOffset_at_cell|].
  intros i t _. rewrite at_cell_bind. apply bind_ext; [apply Pix_get_at_cell|].
  intros a u Hu. destruct (Byte.eqb a x00).
  - rewrite at_cell_bind. apply bind_ext; [apply Pix_set_at_cell|].
    intros _ v _. rewrite at_cell_bind.
    apply bind_ext; [apply Pix_set_at_cell|].
    intros _ w _. apply Pix_set_at_cell.
  - destruct (at_cell_Ok _ _ _ _ _ Hu) as [n Hn].
    symmetry. eapply at_cell_ret. exact Hn.
Qed.

Lemma for_from_at_cell p (body : Z -> Run image.NRGBA unit)
    (body' : Z -> Run Heap unit) count i (h : Heap) n :
  (forall j (t : Heap) m,
     t !! p = Some (ObjNRGBA m) -> body' j t = at_cell p (body j) t) ->
  h !! p = Some (ObjNRGBA n) ->
  for_from count i body' h = at_cell p (for_from count i body) h.
Proof.
  intros Hbody. revert i h n.
  induction count as [|count IH]; intros i h n Hp.
  - cbn [for_from]. symmetry. eapply at_cell_ret. exact Hp.
  - cbn [for_from]. rewrite at_cell_bind.
    apply bind_ext; [eapply Hbody; exact Hp|].
    intros [] t Ht. destruct (at_cell_Ok _ _ _ _ _ Ht) as [n' Hn'].
    eapply IH. exact Hn'.
Qed.

Lemma loops_at_cell rgba width height (h : Heap) n :
  h !! rgba = Some (ObjNRGBA n) ->
  for_range height (fun y =>
    for_range width (fun x => blank_if_transparent rgba x y)) h
  = at_cell rgba (cell_loops width height) h.
Proof.
  intros Hp. unfold cell_loops, for_range.
  eapply for_from_at_cell; [|exact Hp].
  intros y t m Ht.
  eapply for_from_at_cell; [|exact Ht].
  intros x u _ _. apply blank_if_transparent_at_cell.
Qed.

(** On a copy shaped as [image.NewNRGBA] makes it for bounds at the origin,
    the loops end normally and leave the normalised samples. *)
Lemma cell_loops_normalize m w hh :
  0 <= w -> 0 <= hh ->
  image.Stride m = 4 * w ->
  image.Min (image.Rect m) = image.mkPoint 0 0 ->
  length (image.Pix m) = Z.to_nat (4 * w * hh) ->
  cell_loops w hh m
  = (Ok tt, with_Pix m (normalize_pixels (image.Pix m))).
Proof.
  intros Hw Hh Hstride Hmin Hlen.
  pose proof (blank_loops [ObjNRGBA m] 0%nat m w hh ltac:(cbn; lia)
                Hw Hh Hstride Hmin Hlen) as Hrun.
  cbn [insert list_insert] in Hrun.
  rewrite (loops_at_cell 0%nat w hh [ObjNRGBA m] m eq_refl) in Hrun.
  unfold at_cell in Hrun. cbn [lookup list_lookup] in Hrun.
  destruct (cell_loops w hh m) as [o n'].
  cbn [insert list_insert] in Hrun. congruence.
Qed.

(** ** The run of [computeHashes] in general *)

Lemma NewNRGBA_Ok r n : image.NewNRGBA r = Ok n -> n = blank_NRGBA r.
Proof.
  unfold image.NewNRGBA. case_bool_decide; [|discriminate].
  intros [= <-]. reflexivity.
Qed.

Lemma computeHashes_decode_error data (h : Heap) err :
  image_Decode data = inr err ->
  computeHashes data h = (Err ("image decode failed: " +:+ err), h).
Proof. intros Hdec. unfold computeHashes. rewrite Hdec. reflexivity. Qed.

Lemma computeHashes_other_format data (h : Heap) img format :
  image_Decode data = inl (img, format) ->
  strings_ToLower format <> "png" ->
  computeHashes data h
  = (Err "only PNG images are supported", h ++ [ObjImage img]).
Proof.
  intros Hdec Hfmt. unfold computeHashes. rewrite Hdec.
  unfold bind, new. rewrite bool_decide_eq_true_2 by exact Hfmt.
  reflexivity.
Qed.

(** The result does not depend on the store the call starts in, and the
    call only appends cells to it. *)
Lemma computeHashes_engine data (h : Heap) img format :
  image_Decode data = inl (img, format) ->
  strings_ToLower format = "png" ->
  computeHashes data h = (fst (engine_png img), h ++ snd (engine_png img)).
Proof.
  intros Hdec Hfmt.
  unfold computeHashes, engine_png. rewrite Hdec.
  unfold bind at 1. unfold new at 1.
  rewrite bool_decide_eq_false_2 by (intros Hne; apply Hne; exact Hfmt).
  set (h1 := h ++ [ObjImage img]).
  assert (Himg1 : h1 !! length h = Some (ObjImage img)).
  { unfold h1. rewrite lookup_app_r by lia. rewrite Nat.sub_diag. reflexivity. }
  unfold bind at 1. unfold Bounds, bind at 1.
  rewrite (load_Image_lookup _ _ _ Himg1). unfold ret at 1.
  unfold bind at 1. unfold NewNRGBA, bind at 1, lift at 1.
  destruct (image.NewNRGBA (Image_Bounds img)) as [blank|e|msg] eqn:Hnew;
    [|reflexivity|reflexivity].
  apply NewNRGBA_Ok in Hnew. subst blank. unfold new at 1.
  set (h2 := h1 ++ [ObjNRGBA (blank_NRGBA (Image_Bounds img))]).
  assert (Hlen1 : length h1 = S (length h))
    by (unfold h1; rewrite length_app; cbn; lia).
  assert (Himg2 : h2 !! length h = Some (ObjImage img)).
  { unfold h2. rewrite lookup_app_l by lia. exact Himg1. }
  assert (Hrgba2 : h2 !! length h1
                   = Some (ObjNRGBA (blank_NRGBA (Image_Bounds img)))).
  { unfold h2. rewrite lookup_app_r by lia. rewrite Nat.sub_diag.
    reflexivity. }
  assert (Hlt : (length h1 < length h2)%nat)
    by (unfold h2; rewrite length_app; cbn; lia).
  unfold bind at 1. unfold Draw, bind at 1.
  rewrite (load_NRGBA_lookup _ _ _ Hrgba2).
  unfold bind at 1. rewrite (load_Image_lookup _ _ _ Himg2).
  unfold store at 1. fold (converted img).
  unfold bind at 1.
  rewrite (loops_at_cell (length h1) _ _ _ (converted img))
    by (apply list_lookup_insert_eq; exact Hlt).
  rewrite (at_cell_present _ _ _ (converted img))
    by (apply list_lookup_insert_eq; exact Hlt).
  rewrite list_insert_insert_eq.
  destruct (cell_loops (image.Dx (Image_Bounds img))
              (image.Dy (Image_Bounds img)) (converted img)) as [o n].
  cbn [fst snd].
  assert (Hcells : <[length h1 := ObjNRGBA n]> h2
                   = h ++ [ObjImage img; ObjNRGBA n]).
  { unfold h2. replace (length h1) with (length h1 + 0)%nat by lia.
    rewrite insert_app_r. unfold h1. rewrite <- app_assoc. reflexivity. }
  rewrite Hcells.
  destruct o as [[]|e|msg]; [|reflexivity|reflexivity].
  assert (Himg' : (h ++ [ObjImage img; ObjNRGBA n]) !! length h
                  = Some (ObjImage img)).
  { rewrite lookup_app_r by lia. rewrite Nat.sub_diag. reflexivity. }
  assert (Hrgba' : (h ++ [ObjImage img; ObjNRGBA n]) !! length h1
                   = Some (ObjNRGBA n)).
  { rewrite lookup_app_r by lia. rewrite Hlen1.
    replace (S (length h) - length h)%nat with 1%nat by lia. reflexivity. }
  unfold bind at 1. unfold Pix_all, bind at 1.
  rewrite (load_NRGBA_lookup _ _ _ Hrgba'). unfold ret at 1.
  fold (header_of img).
  unfold bind at 1. unfold Encode, bind at 1.
  rewrite (load_Image_lookup _ _ _ Himg').
  destruct (imaging_Encode img imaging_PNG) as [encoded|err];
    [|reflexivity].
  unfold ret at 1, bind, lift. rewrite slice_to_hashBuffer. reflexivity.
Qed.

Lemma engine_png_well_decoded img :
  well_decoded img ->
  engine_png img =
    let cells :=
      [ObjImage img; ObjNRGBA (with_Pix (converted img) (normalized img))] in
    match imaging_Encode img imaging_PNG with
    | inl encoded => (Ok (fingerprint_of img encoded), cells)
    | inr err => (Err err, cells)
    end.
Proof.
  intros [Hb (Hlen & Hstride & Hrect)].
  pose proof Hb as (Hmin & Hw & Hh & Hfit).
  unfold engine_png. rewrite (NewNRGBA_png _ Hb).
  rewrite cell_loops_normalize;
    [ | exact Hw | exact Hh | exact Hstride | rewrite Hrect; exact Hmin
      | rewrite Hlen; apply length_replicate ].
  reflexivity.
Qed.

Lemma computeHashes_png data (h : Heap) img format :
  image_Decode data = inl (img, format) ->
  strings_ToLower format = "png" ->
  well_decoded img ->
  computeHashes data h =
    match imaging_Encode img imaging_PNG with
    | inl encoded => (Ok (fingerprint_of img encoded), final_heap h img)
    | inr err => (Err err, final_heap h img)
    end.
Proof.
  intros Hdec Hfmt Hwd.
  rewrite (computeHashes_engine data h img format Hdec Hfmt).
  rewrite (engine_png_well_decoded img Hwd). cbv zeta.
  destruct (imaging_Encode img imaging_PNG); reflexivity.
Qed.

(** A normal return comes from a PNG. *)
Lemma computeHashes_Ok_png data (h h' : Heap) r :
  computeHashes data h = (Ok r, h') ->
  exists img format,
    image_Decode data = inl (img, format) /\ strings_ToLower format = "png".
Proof.
  intros Hrun.
  destruct (image_Decode data) as [[img format]|err] eqn:Hdec.
  - destruct (decide (strings_ToLower format = "png")) as [Hfmt|Hfmt].
    + exists img, format. split; [reflexivity | exact Hfmt].
    + rewrite (computeHashes_other_format data h img format Hdec Hfmt) in Hrun.
      discriminate.
  - rewrite (computeHashes_decode_error data h err Hdec) in Hrun.
    discriminate.
Qed.

(** ** Bytes and the header *)

Lemma Z_of_byte_of_Z z : Z_of_byte (byte_of_Z z) = z mod 256.
Proof.
  unfold Z_of_byte, byte_of_Z.
  assert (Hr : 0 <= z mod 256 < 256) by (apply Z.mod_pos_bound; lia).
  destruct (Byte.of_N (Z.to_N (z mod 256))) as [b|] eqn:Hb.
  - apply Byte.to_of_N in Hb. rewrite Hb. lia.
  - apply Byte.of_N_None_iff in Hb. lia.
Qed.

Lemma PutUint32_length v : length (PutUint32 v) = 4%nat.
Proof. reflexivity. Qed.

Lemma BigEndian_PutUint32 v :
  BigEndian_Uint32 (PutUint32 (uint32 v)) = v mod 2 ^ 32.
Proof.
  unfold BigEndian_Uint32, PutUint32, uint32.
  rewrite !Z_of_byte_of_Z, !Z.shiftr_div_pow2 by lia.
  assert (Hr : 0 <= v mod 2 ^ 32 < 2 ^ 32) by (apply Z.mod_pos_bound; lia).
  generalize dependent (v mod 2 ^ 32). intros u Hu.
  change (2 ^ 24) with 16777216. change (2 ^ 16) with 65536.
  change (2 ^ 8) with 256. change (2 ^ 32) with 4294967296 in Hu.
  Z.to_euclidean_division_equations. lia.
Qed.

(** ** Pixel by pixel *)

Lemma normalize_pixels_pixel k (pix : list byte) :
  (4 * S k <= length pix)%nat ->
  exists r g b a,
    (pix !! (4 * k + 0)%nat = Some r /\ pix !! (4 * k + 1)%nat = Some g
     /\ pix !! (4 * k + 2)%nat = Some b /\ pix !! (4 * k + 3)%nat = Some a)
    /\ normalize_pixels pix !! (4 * k + 3)%nat = Some a
    /\ (a = x00 ->
        normalize_pixels pix !! (4 * k + 0)%nat = Some x00
        /\ normalize_pixels pix !! (4 * k + 1)%nat = Some x00
        /\ normalize_pixels pix !! (4 * k + 2)%nat = Some x00)
    /\ (a <> x00 ->
        normalize_pixels pix !! (4 * k + 0)%nat = Some r
        /\ normalize_pixels pix !! (4 * k + 1)%nat = Some g
        /\ normalize_pixels pix !! (4 * k + 2)%nat = Some b).
Proof.
  intros Hlen.
  destruct (pixel_window k pix Hlen)
    as (front & r & g & b & a & rest & Hfront & Hpix & _ & _).
  exists r, g, b, a.
  assert (Hnf : length (normalize_pixels front) = (4 * k)%nat)
    by (rewrite normalize_pixels_length; exact Hfront).
  assert (Hnorm : normalize_pixels pix
                  = normalize_pixels front
                      ++ (if Byte.eqb a x00 then [x00; x00; x00; a]
                          else [r; g; b; a]) ++ normalize_pixels rest).
  { rewrite Hpix at 1. rewrite (normalize_pixels_app k) by exact Hfront.
    reflexivity. }
  assert (Hat : forall (l : list byte) front' j,
             length front' = (4 * k)%nat ->
             (front' ++ l) !! (4 * k + j)%nat = l !! j).
  { intros l front' j Hl. rewrite lookup_app_r by lia. f_equal. lia. }
  split; [|split; [|split]].
  - rewrite Hpix, !Hat by exact Hfront. repeat split; reflexivity.
  - rewrite Hnorm, Hat by exact Hnf.
    destruct (Byte.eqb a x00); reflexivity.
  - intros ->. rewrite Hnorm, !Hat by exact Hnf. repeat split; reflexivity.
  - intros Ha. rewrite Hnorm, !Hat by exact Hnf.
    destruct (Byte.eqb a x00) eqn:Heq.
    + apply Byte.byte_dec_bl in Heq. contradiction.
    + repeat split; reflexivity.
Qed.

Lemma sample_index (pix : list byte) w x y c :
  0 <= w -> 0 <= x -> 0 <= y ->
  sample pix w x y c = pix !! (4 * Z.to_nat (y * w + x) + c)%nat.
Proof.
  intros Hw Hx Hy. unfold sample. f_equal. nia.
Qed.

(** ** Pictures that differ under transparent pixels only *)

Lemma normalize_pixels_agree n (p q : list byte) :
  length p = (4 * n)%nat -> length q = (4 * n)%nat ->
  (forall k, (k < n)%nat ->
     exists a,
       p !! (4 * k + 3)%nat = Some a /\ q !! (4 * k + 3)%nat = Some a
       /\ (a <> x00 ->
           forall c, (c < 3)%nat -> p !! (4 * k + c)%nat = q !! (4 * k + c)%nat)) ->
  normalize_pixels p = normalize_pixels q.
Proof.
  revert p q. induction n as [|n IH]; intros p q Hp Hq Hagree.
  - destruct p; [|discriminate]. destruct q; [|discriminate]. reflexivity.
  - destruct p as [|r [|g [|b [|a p']]]]; simpl in Hp; try lia.
    destruct q as [|r' [|g' [|b' [|a' q']]]]; simpl in Hq; try lia.
    destruct (Hagree 0%nat ltac:(lia)) as (a0 & Ha & Ha' & Hcol).
    cbn in Ha, Ha'. injection Ha as <-. injection Ha' as ->.
    cbn [normalize_pixels]. f_equal.
    + destruct (Byte.eqb a x00) eqn:Heq; [reflexivity|].
      apply Byte.eqb_false in Heq.
      pose proof (Hcol Heq 0%nat ltac:(lia)) as H0.
      pose proof (Hcol Heq 1%nat ltac:(lia)) as H1.
      pose proof (Hcol Heq 2%nat ltac:(lia)) as H2.
      cbn in H0, H1, H2. congruence.
    + apply (IH p' q'); [lia | lia |].
      intros k Hk. destruct (Hagree (S k) ltac:(lia)) as (ak & Hk1 & Hk2 & Hk3).
      replace (4 * S k + 3)%nat with (S (S (S (S (4 * k + 3))))) in Hk1, Hk2
        by lia.
      exists ak. split; [exact Hk1|]. split; [exact Hk2|].
      intros Hne c Hc. specialize (Hk3 Hne c Hc).
      replace (4 * S k + c)%nat with (S (S (S (S (4 * k + c))))) in Hk3 by lia.
      exact Hk3.
Qed.

Lemma same_visible_normalize w hh (p q : list byte) :
  0 <= w -> 0 <= hh ->
  Z.of_nat (length p) = 4 * w * hh -> Z.of_nat (length q) = 4 * w * hh ->
  same_visible w hh p q ->
  normalize_pixels p = normalize_pixels q.
Proof.
  intros Hw Hh Hp Hq Hsame.
  apply (normalize_pixels_agree (Z.to_nat (w * hh))); [lia | lia |].
  intros k Hk.
  assert (Hwpos : 0 < w) by nia.
  pose proof (Z.div_mod (Z.of_nat k) w ltac:(lia)) as Hdm.
  pose proof (Z.mod_pos_bound (Z.of_nat k) w Hwpos) as Hx.
  assert (Hy : 0 <= Z.of_nat k / w < hh).
  { split; [apply Z.div_pos; lia|]. apply Z.div_lt_upper_bound; nia. }
  destruct (Hsame (Z.of_nat k mod w) (Z.of_nat k / w) Hx Hy)
    as (a & Ha & Ha' & Hcol).
  assert (Hidx : Z.to_nat (4 * (Z.of_nat k / w * w + Z.of_nat k mod w))
                 = (4 * k)%nat) by nia.
  unfold sample in Ha, Ha', Hcol. rewrite Hidx in Ha, Ha', Hcol.
  exists a. auto.
Qed.

(** ** What a normal return tells *)

Lemma engine_png_Ok img res :
  fst (engine_png img) = Ok res ->
  exists n encoded,
    cell_loops (image.Dx (Image_Bounds img)) (image.Dy (Image_Bounds img))
      (converted img) = (Ok tt, n)
    /\ imaging_Encode img imaging_PNG = inl encoded
    /\ snd (engine_png img) = [ObjImage img; ObjNRGBA n]
    /\ Standard res = hashBuffer encoded
    /\ AlphaNormalized res = hashBuffer (header_of img ++ image.Pix n)
    /\ AlphaNormalizedCompact res
       = first_chars 16 (hashBuffer (header_of img ++ image.Pix n)).
Proof.
  unfold engine_png.
  destruct (image.NewNRGBA (Image_Bounds img)); try discriminate.
  destruct (cell_loops _ _ (converted img)) as [[[]|e|msg] n];
    try discriminate.
  destruct (imaging_Encode img imaging_PNG) as [encoded|err];
    try discriminate.
  cbn [fst snd]. intros [= <-]. exists n, encoded.
  repeat split; reflexivity.
Qed.

Lemma computeHashes_Ok data (h h' : Heap) res :
  computeHashes data h = (Ok res, h') ->
  exists img format,
    image_Decode data = inl (img, format)
    /\ strings_ToLower format = "png"
    /\ fst (engine_png img) = Ok res
    /\ h' = h ++ snd (engine_png img).
Proof.
  intros Hrun.
  destruct (computeHashes_Ok_png data h h' res Hrun)
    as (img & format & Hdec & Hfmt).
  exists img, format.
  rewrite (computeHashes_engine data h img format Hdec Hfmt) in Hrun.
  injection Hrun as Hres Hh. auto.
Qed.

(** ** The handler *)

Lemma hash_and_store_ending r σ key skinBytes :
  request_cache_key r = Some key ->
  cache σ !! key = None ->
  ending r σ (hash_and_store skinBytes key σ).
Proof.
  intros Hkey Hmiss. unfold hash_and_store, on_heap.
  destruct (computeHashes skinBytes (heap σ)) as [[hashes|err|msg] h'] eqn:Hrun.
  - unfold bind, cache_Store, writeJSON, reply. cbn.
    eapply ends_with_store; eauto.
  - eapply ends_with_error; reflexivity.
  - eapply ends_with_panic; reflexivity.
Qed.

Lemma handleHash_ending r σ : ending r σ (handleHash r σ).
Proof.
  pose proof (hash_and_store_ending r σ) as Hend.
  unfold handleHash. unfold request_cache_key, url_cache_key in Hend.
  unfold normalizeURL.
  case_bool_decide as Hurl.
  - destruct (url_Parse (http.query_url r)) as [parsed|perr] eqn:Hparse.
    + rewrite bool_decide_eq_false_2 by (intros Hne; apply Hne; reflexivity).
      fold (strip_query_fragment parsed).
      unfold bind at 1. unfold cache_Load at 1.
      destruct (cache σ !! _) as [val|] eqn:Hhit.
      * eapply ends_with_hit; [|exact Hhit].
        unfold request_cache_key, url_cache_key.
        rewrite bool_decide_eq_true_2 by exact Hurl. rewrite Hparse.
        reflexivity.
      * destruct (http_Get (http.query_url r)) as [resp err].
        unfold bind at 1.
        destruct err as [e|].
        -- rewrite bool_decide_eq_true_2 by discriminate.
           eapply ends_with_error; reflexivity.
        -- rewrite bool_decide_eq_false_2
             by (intros Hne; apply Hne; reflexivity).
           unfold bind at 1, lift at 1.
           destruct resp as [resp|]; cbn [StatusCode].
           ++ unfold ret at 1. case_bool_decide as Hcode.
              ** eapply ends_with_panic; reflexivity.
              ** unfold bind at 1, lift at 1. cbn [ReadAll_Body].
                 destruct (http.Body resp) as [body|rerr].
                 --- rewrite bool_decide_eq_false_2
                       by (intros Hne; apply Hne; reflexivity).
                     apply Hend; [reflexivity | exact Hhit].
                 --- rewrite bool_decide_eq_true_2 by discriminate.
                     eapply ends_with_error; reflexivity.
           ++ eapply ends_with_panic; reflexivity.
    + rewrite bool_decide_eq_true_2 by discriminate.
      eapply ends_with_error; reflexivity.
  - destruct (http.FormFile r) as [[raw|rerr]|ferr] eqn:Hfile.
    + unfold bind at 1. unfold cache_Load at 1.
      destruct (cache σ !! _) as [val|] eqn:Hhit.
      * eapply ends_with_hit; [|exact Hhit].
        unfold request_cache_key.
        rewrite bool_decide_eq_false_2
          by (intros Hne; apply Hne; exact Hurl).
        rewrite Hfile.
        reflexivity.
      * apply Hend; [reflexivity | exact Hhit].
    + eapply ends_with_error; reflexivity.
    + eapply ends_with_error; reflexivity.
Qed.

Lemma handleHash_hit r σ key val :
  request_cache_key r = Some key ->
  cache σ !! key = Some val ->
  handleHash r σ = (Ok tt, add_reply σ (http.JSONReply val)).
Proof.
  unfold request_cache_key, url_cache_key, handleHash, normalizeURL.
  case_bool_decide as Hurl.
  - destruct (url_Parse (http.query_url r)) as [parsed|perr];
      [|discriminate].
    intros [= <-] Hhit.
    rewrite bool_decide_eq_false_2 by (intros Hne; apply Hne; reflexivity).
    unfold bind, cache_Load. unfold strip_query_fragment in Hhit.
    rewrite Hhit. reflexivity.
  - destruct (http.FormFile r) as [[raw|rerr]|ferr]; try discriminate.
    intros [= <-] Hhit. unfold bind, cache_Load.
    unfold upload_cache_key in Hhit. unfold sha256Hex. rewrite Hhit.
    reflexivity.
Qed.

Lemma strip_query_fragment_same u v :
  same_but_query_fragment u v ->
  strip_query_fragment u = strip_query_fragment v.
Proof.
  intros (H1 & H2 & H3 & H4 & H5 & H6 & H7 & H8 & H9).
  unfold strip_query_fragment, url.set_Fragment, url.set_RawQuery. cbn.
  congruence.
Qed.

(** The handler behind [recoverMiddleware] never panics, and ends as the
    bare handler does, a panic being answered with status 500. *)
Lemma recovered_ending r σ :
  exists σ',
    recoverMiddleware handleHash r σ = (Ok tt, σ')
    /\ ((cache σ' = cache σ
         /\ exists body code,
              written σ' = written σ ++ [http.ErrorReply body code])
        \/ (exists key val,
              request_cache_key r = Some key /\ cache σ !! key = Some val
              /\ σ' = add_reply σ (http.JSONReply val))
        \/ (exists key skinBytes hashes h',
              request_cache_key r = Some key /\ cache σ !! key = None
              /\ computeHashes skinBytes (heap σ) = (Ok hashes, h')
              /\ cache σ' = <[key := hashes]> (cache σ)
              /\ written σ' = written σ ++ [http.JSONReply hashes])).
Proof.
  unfold recoverMiddleware.
  destruct (handleHash_ending r σ)
    as [body code σ' Hc Hw | msg σ' Hc Hw | key val Hk Hhit
        | key skinBytes hashes h' Hk Hmiss Hrun].
  - exists σ'. split; [reflexivity|]. left. eauto.
  - eexists. split; [reflexivity|]. left. cbn. rewrite Hc, Hw. eauto.
  - eexists. split; [reflexivity|]. right. left. eauto.
  - eexists. split; [reflexivity|]. right. right.
    exists key, skinBytes, hashes, h'. auto.
Qed.

(** * The specification, statement by statement *)

(** C1 (as amended).  For every successfully decoded PNG image, the buffer
    hashed into [alpha_normalized_hash] is an 8-byte header, the width then
    the height as big-endian [uint32], followed by four bytes per pixel in
    row-major order, which are the samples of the NRGBA copy that
    [draw.Draw] makes of the decoded image: a pixel of the copy whose alpha
    sample is 0 has its R, G and B bytes set to 0, and every other pixel
    keeps the R, G, B, A samples of the copy.  Whether the copy holds the
    decoded values is up to [draw.Draw].  The decoded image is taken as the
    PNG decoder and [draw.Draw] deliver it: bounds at the origin, and a copy
    whose geometry is the one [image.NewNRGBA] gave it. *)
Theorem alpha_normalized_buffer_layout data (h h' : Heap) res :
  computeHashes data h = (Ok res, h') ->
  (forall img format,
     image_Decode data = inl (img, format) ->
     strings_ToLower format = "png" -> well_decoded img) ->
  exists img format hw hh pix,
    image_Decode data = inl (img, format)
    /\ AlphaNormalized res = hashBuffer ((hw ++ hh) ++ pix)
    /\ length hw = 4%nat
    /\ BigEndian_Uint32 hw = image.Dx (Image_Bounds img) mod 2 ^ 32
    /\ length hh = 4%nat
    /\ BigEndian_Uint32 hh = image.Dy (Image_Bounds img) mod 2 ^ 32
    /\ Z.of_nat (length pix)
       = 4 * image.Dx (Image_Bounds img) * image.Dy (Image_Bounds img)
    /\ forall x y,
         0 <= x < image.Dx (Image_Bounds img) ->
         0 <= y < image.Dy (Image_Bounds img) ->
         let w := image.Dx (Image_Bounds img) in
         let copy := image.Pix (converted img) in
         exists r g b a,
           (sample copy w x y 0 = Some r /\ sample copy w x y 1 = Some g
            /\ sample copy w x y 2 = Some b
            /\ sample copy w x y 3 = Some a)
           /\ sample pix w x y 3 = Some a
           /\ (a = x00 ->
               sample pix w x y 0 = Some x00 /\ sample pix w x y 1 = Some x00
               /\ sample pix w x y 2 = Some x00)
           /\ (a <> x00 ->
               sample pix w x y 0 = Some r /\ sample pix w x y 1 = Some g
               /\ sample pix w x y 2 = Some b).
Proof.
  intros Hrun Hlib.
  destruct (computeHashes_Ok_png data h h' res Hrun)
    as (img & format & Hdec & Hfmt).
  pose proof (Hlib img format Hdec Hfmt) as Hwd.
  rewrite (computeHashes_png data h img format Hdec Hfmt Hwd) in Hrun.
  destruct (imaging_Encode img imaging_PNG) as [encoded|err];
    [|discriminate].
  injection Hrun as <- _.
  destruct Hwd as [(Hmin & Hw & Hh & Hfit) (Hlen & _ & _)].
  assert (Hsize : length (image.Pix (converted img))
                  = Z.to_nat (4 * image.Dx (Image_Bounds img)
                              * image.Dy (Image_Bounds img)))
    by (rewrite Hlen; apply length_replicate).
  exists img, format,
    (PutUint32 (uint32 (image.Dx (Image_Bounds img)))),
    (PutUint32 (uint32 (image.Dy (Image_Bounds img)))),
    (normalized img).
  split; [exact Hdec|]. split; [reflexivity|].
  split; [reflexivity|]. split; [apply BigEndian_PutUint32|].
  split; [reflexivity|]. split; [apply BigEndian_PutUint32|].
  split.
  { unfold normalized. rewrite normalize_pixels_length, Hsize. lia. }
  intros x y Hx Hy w copy.
  unfold normalized. fold copy.
  rewrite !(sample_index _ w x y) by lia.
  apply normalize_pixels_pixel.
  unfold copy. rewrite Hsize. unfold w. nia.
Qed.

(** C2 (as amended).  Two PNG images of equal dimensions whose NRGBA
    copies, as [draw.Draw] makes them of the decoded images, agree
    everywhere except in the colour of pixels with alpha exactly 0
    (arbitrary in one, zeroed or anything else in the other) get the same
    [alpha_normalized_hash]; the [standard_hash] of each is the hash of the
    re-encoding of its own original, so the two may differ. *)
Theorem hidden_colour_same_alpha_hash data1 data2 (h1 h2 h1' h2' : Heap)
    res1 res2 img1 img2 format1 format2 :
  image_Decode data1 = inl (img1, format1) ->
  image_Decode data2 = inl (img2, format2) ->
  computeHashes data1 h1 = (Ok res1, h1') ->
  computeHashes data2 h2 = (Ok res2, h2') ->
  well_decoded img1 -> well_decoded img2 ->
  image.Dx (Image_Bounds img1) = image.Dx (Image_Bounds img2) ->
  image.Dy (Image_Bounds img1) = image.Dy (Image_Bounds img2) ->
  same_visible (image.Dx (Image_Bounds img1)) (image.Dy (Image_Bounds img1))
    (image.Pix (converted img1)) (image.Pix (converted img2)) ->
  AlphaNormalized res1 = AlphaNormalized res2
  /\ exists encoded1 encoded2,
       imaging_Encode img1 imaging_PNG = inl encoded1
       /\ imaging_Encode img2 imaging_PNG = inl encoded2
       /\ Standard res1 = hashBuffer encoded1
       /\ Standard res2 = hashBuffer encoded2.
Proof.
  intros Hdec1 Hdec2 Hrun1 Hrun2 Hwd1 Hwd2 Hdx Hdy Hsame.
  destruct (computeHashes_Ok_png _ _ _ _ Hrun1) as (i1 & f1 & Hd1 & Hf1).
  destruct (computeHashes_Ok_png _ _ _ _ Hrun2) as (i2 & f2 & Hd2 & Hf2).
  rewrite Hdec1 in Hd1. injection Hd1 as <- <-.
  rewrite Hdec2 in Hd2. injection Hd2 as <- <-.
  rewrite (computeHashes_png _ _ _ _ Hdec1 Hf1 Hwd1) in Hrun1.
  rewrite (computeHashes_png _ _ _ _ Hdec2 Hf2 Hwd2) in Hrun2.
  destruct (imaging_Encode img1 imaging_PNG) as [e1|]; [|discriminate].
  destruct (imaging_Encode img2 imaging_PNG) as [e2|]; [|discriminate].
  injection Hrun1 as <- _. injection Hrun2 as <- _.
  split.
  - cbn [AlphaNormalized fingerprint_of]. f_equal.
    unfold alpha_buffer, header_of, normalized. rewrite <- Hdx, <- Hdy.
    f_equal.
    destruct Hwd1 as [(_ & Hw & Hh & _) (Hlen1 & _ & _)].
    destruct Hwd2 as [_ (Hlen2 & _ & _)].
    apply (same_visible_normalize _ _ _ _ Hw Hh); [| |exact Hsame].
    + rewrite Hlen1. cbn [blank_NRGBA image.Pix].
      rewrite length_replicate. nia.
    + rewrite Hlen2. cbn [blank_NRGBA image.Pix].
      rewrite length_replicate, <- Hdx, <- Hdy. nia.
  - exists e1, e2. repeat split; reflexivity.
Qed.

(** C3.  [standard_hash] is the hex-encoded SHA-256 of the PNG re-encoding
    of the image as it was decoded: the loops write to the separate NRGBA
    copy only, the cell of the original still holds the decoded image when
    the call returns, and the cells that existed before the call are
    untouched. *)
Theorem standard_hash_of_original data (h h' : Heap) res :
  computeHashes data h = (Ok res, h') ->
  exists img format encoded copy,
    image_Decode data = inl (img, format)
    /\ imaging_Encode img imaging_PNG = inl encoded
    /\ Standard res = hashBuffer encoded
    /\ h' = h ++ [ObjImage img; ObjNRGBA copy]
    /\ AlphaNormalized res = hashBuffer (header_of img ++ image.Pix copy).
Proof.
  intros Hrun.
  destruct (computeHashes_Ok _ _ _ _ Hrun)
    as (img & format & Hdec & _ & Hres & ->).
  destruct (engine_png_Ok img res Hres)
    as (n & encoded & _ & Henc & -> & Hstd & Halpha & _).
  exists img, format, encoded, n. auto.
Qed.

(** C4.  Bytes that do not decode give an error, bytes that decode to a
    format other than PNG give the error "only PNG images are supported",
    and a response is returned only for bytes that decode as PNG. *)
Theorem computeHashes_rejects_non_png data (h : Heap) :
  (forall err, image_Decode data = inr err ->
     fst (computeHashes data h) = Err ("image decode failed: " +:+ err))
  /\ (forall img format,
        image_Decode data = inl (img, format) ->
        strings_ToLower format <> "png" ->
        fst (computeHashes data h) = Err "only PNG images are supported")
  /\ (forall res, fst (computeHashes data h) = Ok res ->
        exists img format,
          image_Decode data = inl (img, format)
          /\ strings_ToLower format = "png").
Proof.
  split; [|split].
  - intros err Hdec. rewrite (computeHashes_decode_error _ _ _ Hdec).
    reflexivity.
  - intros img format Hdec Hfmt.
    rewrite (computeHashes_other_format _ _ _ _ Hdec Hfmt). reflexivity.
  - intros res Hres.
    destruct (computeHashes data h) as [o h'] eqn:Hrun. cbn in Hres. subst o.
    exact (computeHashes_Ok_png _ _ _ _ Hrun).
Qed.

(** The outcome of a call is the same in every store. *)
Lemma computeHashes_store_independent data (h1 h2 : Heap) :
  fst (computeHashes data h1) = fst (computeHashes data h2).
Proof.
  destruct (image_Decode data) as [[img format]|err] eqn:Hdec.
  - destruct (decide (strings_ToLower format = "png")) as [Hfmt|Hfmt].
    + rewrite !(computeHashes_engine data _ img format Hdec Hfmt).
      reflexivity.
    + rewrite !(computeHashes_other_format data _ img format Hdec Hfmt).
      reflexivity.
  - rewrite !(computeHashes_decode_error data _ err Hdec). reflexivity.
Qed.

(** C8.  Two invocations on the same bytes, in whatever state of the store,
    that both return a response return the same response. *)
Theorem computeHashes_deterministic data (h1 h2 h1' h2' : Heap) res1 res2 :
  computeHashes data h1 = (Ok res1, h1') ->
  computeHashes data h2 = (Ok res2, h2') ->
  res1 = res2
  /\ Standard res1 = Standard res2
  /\ AlphaNormalized res1 = AlphaNormalized res2
  /\ AlphaNormalizedCompact res1 = AlphaNormalizedCompact res2.
Proof.
  intros Hrun1 Hrun2.
  pose proof (computeHashes_store_independent data h1 h2) as Hsame.
  rewrite Hrun1, Hrun2 in Hsame. cbn in Hsame. injection Hsame as ->.
  repeat split; reflexivity.
Qed.

(** C9.  In every response, [alpha_normalized_compact] is the first 16
    characters of [alpha_normalized_hash]. *)
Theorem compact_is_prefix data (h h' : Heap) res :
  computeHashes data h = (Ok res, h') ->
  AlphaNormalizedCompact res = first_chars 16 (AlphaNormalized res).
Proof.
  intros Hrun.
  destruct (computeHashes_Ok _ _ _ _ Hrun)
    as (img & format & _ & _ & Hres & _).
  destruct (engine_png_Ok img res Hres)
    as (n & encoded & _ & _ & _ & _ & Halpha & Hcompact).
  rewrite Hcompact, Halpha. reflexivity.
Qed.

(** C10.  On every input the call returns an error or a response, and
    never panics; in a response the two hashes are 64 lower-case
    hexadecimal characters and the compact form is 16; the slice
    [alphaHash[:16]] is within bounds.  The decoded image is taken as
    the PNG decoder and [draw.Draw] deliver it. *)
Theorem computeHashes_total data (h : Heap) :
  (forall img format,
     image_Decode data = inl (img, format) ->
     strings_ToLower format = "png" -> well_decoded img) ->
  (exists e, fst (computeHashes data h) = Err e)
  \/ (exists res,
        fst (computeHashes data h) = Ok res
        /\ lower_hex_of_length 64 (Standard res)
        /\ lower_hex_of_length 64 (AlphaNormalized res)
        /\ lower_hex_of_length 16 (AlphaNormalizedCompact res)
        /\ slice_to (AlphaNormalized res) 16
           = Ok (AlphaNormalizedCompact res)).
Proof.
  intros Hlib.
  destruct (image_Decode data) as [[img format]|err] eqn:Hdec.
  - destruct (decide (strings_ToLower format = "png")) as [Hfmt|Hfmt].
    + rewrite (computeHashes_png data h img format Hdec Hfmt
                 (Hlib img format eq_refl Hfmt)).
      destruct (imaging_Encode img imaging_PNG) as [encoded|e].
      * right. exists (fingerprint_of img encoded).
        split; [reflexivity|].
        pose proof (hashBuffer_hex (alpha_buffer img)) as [Hlen Hhex].
        split; [apply hashBuffer_hex|]. split; [apply hashBuffer_hex|].
        split; [|apply slice_to_hashBuffer].
        split.
        -- apply first_chars_length. cbn [AlphaNormalized fingerprint_of].
           rewrite Hlen. lia.
        -- apply first_chars_all. exact Hhex.
      * left. exists e. reflexivity.
    + left. rewrite (computeHashes_other_format data h img format Hdec Hfmt).
      eexists. reflexivity.
  - left. rewrite (computeHashes_decode_error data h err Hdec).
    eexists. reflexivity.
Qed.

(** The handler looks up and stores under the key of the request: for a
    URL source ["url:"] followed by the parsed URL re-serialised with its
    [RawQuery] and [Fragment] emptied, for an upload ["sha256:"] followed by
    the hex SHA-256 of the raw bytes, formed before anything is decoded (a
    hit answers from the cache and leaves the store of images as it was).
    Two URLs whose parsed forms differ in [RawQuery] and [Fragment] only
    have one key. *)
Lemma cache_key_derivation :
  (forall r parsed,
     http.query_url r <> "" -> url_Parse (http.query_url r) = inl parsed ->
     request_cache_key r
     = Some ("url:" +:+ URL_String
                          (url.set_Fragment "" (url.set_RawQuery "" parsed))))
  /\ (forall r raw,
        http.query_url r = "" -> http.FormFile r = inl (inl raw) ->
        request_cache_key r
        = Some ("sha256:" +:+ hex_EncodeToString (sha256.Sum256 raw)))
  /\ (forall r σ key val,
        request_cache_key r = Some key -> cache σ !! key = Some val ->
        handleHash r σ = (Ok tt, add_reply σ (http.JSONReply val)))
  /\ (forall r σ,
        cache (snd (handleHash r σ)) <> cache σ ->
        exists key hashes,
          request_cache_key r = Some key
          /\ cache (snd (handleHash r σ)) = <[key := hashes]> (cache σ))
  /\ (forall raw1 raw2 u1 u2,
        url_Parse raw1 = inl u1 -> url_Parse raw2 = inl u2 ->
        same_but_query_fragment u1 u2 ->
        url_cache_key raw1 = url_cache_key raw2).
Proof.
  split; [|split; [|split; [|split]]].
  - intros r parsed Hurl Hparse. unfold request_cache_key, url_cache_key.
    rewrite bool_decide_eq_true_2 by exact Hurl. rewrite Hparse. reflexivity.
  - intros r raw Hurl Hfile. unfold request_cache_key.
    rewrite bool_decide_eq_false_2 by (intros Hne; apply Hne; exact Hurl).
    rewrite Hfile. reflexivity.
  - apply handleHash_hit.
  - intros r σ Hchanged.
    destruct (handleHash_ending r σ)
      as [body code σ' Hc Hw | msg σ' Hc Hw | key val Hk Hhit
          | key skinBytes hashes h' Hk Hmiss Hrun];
      cbn [snd] in *; try congruence.
    + exfalso. apply Hchanged. reflexivity.
    + exists key, hashes. auto.
  - intros raw1 raw2 u1 u2 H1 H2 Hsame. unfold url_cache_key.
    rewrite H1, H2, (strip_query_fragment_same u1 u2 Hsame). reflexivity.
Qed.

(** C6.  Whenever the request ends in an error reply, whatever the cause,
    the cache is as it was before; the cache changes only by the one
    binding of the key to the response that [computeHashes] returned. *)
Theorem errors_leave_cache_unchanged r σ o σ' :
  recoverMiddleware handleHash r σ = (o, σ') ->
  (forall body code,
     last (written σ') = Some (http.ErrorReply body code) ->
     cache σ' = cache σ)
  /\ (cache σ' <> cache σ ->
      exists key skinBytes hashes h',
        request_cache_key r = Some key
        /\ computeHashes skinBytes (heap σ) = (Ok hashes, h')
        /\ cache σ' = <[key := hashes]> (cache σ)
        /\ last (written σ') = Some (http.JSONReply hashes)).
Proof.
  intros Hrun.
  destruct (recovered_ending r σ) as (σ1 & Hrun1 & Hcases).
  rewrite Hrun in Hrun1. injection Hrun1 as -> <-.
  destruct Hcases as [(Hc & body & code & Hw)
                     | [(key & val & Hk & Hhit & ->)
                       | (key & skinBytes & hashes & h' & Hk & Hmiss & Hcomp
                          & Hc & Hw)]].
  - split; [auto | intros Hne; contradiction].
  - split; [reflexivity | intros Hne; exfalso; apply Hne; reflexivity].
  - split.
    + intros body code Hlast. rewrite Hw, last_snoc in Hlast. discriminate.
    + intros _. exists key, skinBytes, hashes, h'.
      rewrite Hw, last_snoc. auto.
Qed.

(** C7 (what the code does).  When the fetch completes with a status other
    than 200, [err] is nil and [err.Error()] panics before anything is
    written; [recoverMiddleware] then answers "Internal server error" with
    status 500, not "Failed to fetch image from URL". *)
Theorem non_200_status_panics r σ parsed resp :
  http.query_url r <> "" ->
  url_Parse (http.query_url r) = inl parsed ->
  cache σ !! ("url:" +:+ URL_String (strip_query_fragment parsed)) = None ->
  http_Get (http.query_url r) = (Some resp, None) ->
  http.StatusCode resp <> 200 ->
  handleHash r σ = (Panic nil_deref, σ)
  /\ recoverMiddleware handleHash r σ
     = (Ok tt,
        add_reply σ
          (http.ErrorReply (error_body "Internal server error" nil_deref)
             http.StatusInternalServerError)).
Proof.
  intros Hurl Hparse Hmiss Hget Hcode.
  assert (Hpanic : handleHash r σ = (Panic nil_deref, σ)).
  { unfold handleHash, normalizeURL.
    rewrite bool_decide_eq_true_2 by exact Hurl. rewrite Hparse.
    rewrite bool_decide_eq_false_2 by (intros Hne; apply Hne; reflexivity).
    unfold bind at 1. unfold cache_Load at 1.
    unfold strip_query_fragment in Hmiss. rewrite Hmiss, Hget.
    unfold bind at 1.
    rewrite bool_decide_eq_false_2 by (intros Hne; apply Hne; reflexivity).
    unfold bind at 1, lift at 1. cbn [StatusCode]. unfold ret at 1.
    rewrite bool_decide_eq_true_2 by exact Hcode. reflexivity. }
  split; [exact Hpanic|].
  unfold recoverMiddleware. rewrite Hpanic. reflexivity.
Qed.

(** * More of the program *)

(** ** Cutting strings *)

Lemma append_nil_l (s : string) : "" +:+ s = s.
Proof. reflexivity. Qed.

Lemma append_cons c (s t : string) : String c s +:+ t = String c (s +:+ t).
Proof. reflexivity. Qed.

Lemma append_assoc (s t u : string) : (s +:+ t) +:+ u = s +:+ (t +:+ u).
Proof.
  induction s as [|c s' IH]; [reflexivity|].
  rewrite !append_cons, IH. reflexivity.
Qed.

Lemma strings_SplitN_2_found s sep :
  strings_Contains s sep = true ->
  exists key value,
    strings_SplitN_2 s sep = [key; value]
    /\ strings_Contains key sep = false
    /\ s = key +:+ String sep value.
Proof.
  induction s as [|c rest IH]; simpl; [discriminate|].
  destruct (Ascii.eqb c sep) eqn:Hc.
  - intros _. apply Ascii.eqb_eq in Hc. subst c.
    exists EmptyString, rest. repeat split; reflexivity.
  - simpl. intros Hrest.
    destruct (IH Hrest) as (key & value & -> & Hkey & ->).
    exists (String c key), value.
    simpl. rewrite Hc, Hkey. repeat split; reflexivity.
Qed.

Lemma strings_SplitN_2_missing s sep :
  strings_Contains s sep = false -> strings_SplitN_2 s sep = [s].
Proof.
  induction s as [|c rest IH]; simpl; [reflexivity|].
  destruct (Ascii.eqb c sep); simpl; [discriminate|].
  intros Hrest. rewrite (IH Hrest). reflexivity.
Qed.

Lemma strings_SplitN_2_cut key value sep :
  strings_Contains key sep = false ->
  strings_SplitN_2 (key +:+ String sep value) sep = [key; value].
Proof.
  induction key as [|c rest IH];
    rewrite ?append_nil_l, ?append_cons; simpl.
  - intros _. rewrite Ascii.eqb_refl. reflexivity.
  - destruct (Ascii.eqb c sep); simpl; [discriminate|].
    intros Hrest. rewrite (IH Hrest). reflexivity.
Qed.

Lemma strings_Split_line line rest sep :
  strings_Contains line sep = false ->
  strings_Split (line +:+ String sep rest) sep
  = line :: strings_Split rest sep.
Proof.
  induction line as [|c line' IH];
    rewrite ?append_nil_l, ?append_cons; simpl.
  - intros _. rewrite Ascii.eqb_refl. reflexivity.
  - destruct (Ascii.eqb c sep); simpl; [discriminate|].
    intros Hrest. rewrite (IH Hrest). reflexivity.
Qed.

Lemma strings_Contains_app s t sep :
  strings_Contains (s +:+ t) sep
  = strings_Contains s sep || strings_Contains t sep.
Proof.
  induction s as [|c s' IH]; [reflexivity|].
  rewrite append_cons. simpl. rewrite IH. apply orb_assoc.
Qed.

(** ** The settings *)

Lemma load_line_binding line ρ :
  load_line line ρ
  = (Ok tt,
     {| env := match binding_of line with
               | Some b => <[b.1 := b.2]> (env ρ)
               | None => env ρ
               end;
        logged := logged ρ |}).
Proof.
  unfold load_line, binding_of.
  destruct (strings_Contains (strings_TrimSpace line) "=") eqn:Hc.
  - destruct (strings_SplitN_2_found _ _ Hc) as (key & value & -> & _ & _).
    reflexivity.
  - rewrite (strings_SplitN_2_missing _ _ Hc). destruct ρ; reflexivity.
Qed.

Lemma for_each_load_line lines ρ :
  for_each lines load_line ρ
  = (Ok tt,
     {| env := assign (omap binding_of lines) (env ρ);
        logged := logged ρ |}).
Proof.
  revert ρ. induction lines as [|line rest IH]; intros ρ.
  - destruct ρ; reflexivity.
  - cbn [for_each]. unfold bind. rewrite load_line_binding, IH.
    cbn [env logged omap list_omap].
    destruct (binding_of line) as [b|]; reflexivity.
Qed.

Lemma assign_snoc bs b m :
  assign (bs ++ [b]) m = <[b.1 := b.2]> (assign bs m).
Proof. unfold assign. rewrite fold_left_app. reflexivity. Qed.

Lemma assign_lookup bs (m : gmap string string) key :
  assign bs m !! key
  = match last_bound bs key with
    | Some value => Some value
    | None => m !! key
    end.
Proof.
  induction bs as [|b bs IH] using rev_ind.
  - reflexivity.
  - rewrite assign_snoc. unfold last_bound in *.
    rewrite filter_app, filter_cons, filter_nil.
    destruct (decide (b.1 = key)) as [Heq|Hne].
    + rewrite last_snoc. cbn. rewrite Heq. apply lookup_insert_eq.
    + rewrite app_nil_r, lookup_insert_ne by exact Hne. exact IH.
Qed.

Lemma bindings_of_render bs :
  strings_TrimSpace "" = "" ->
  Forall plain_binding bs ->
  bindings_of (render bs) = bs.
Proof.
  intros Hempty Hbs. unfold bindings_of.
  induction Hbs as [|[key value] bs (Hk & Hkn & Hvn & Htk & Htv & Htl) _ IH].
  - cbn. unfold binding_of. rewrite Hempty. reflexivity.
  - cbn [render fst snd] in *.
    assert (Hline : strings_Contains (key +:+ "=" +:+ value) newline = false).
    { rewrite !strings_Contains_app, Hkn, Hvn. reflexivity. }
    replace (key +:+ "=" +:+ value +:+ String newline (render bs))
      with ((key +:+ "=" +:+ value) +:+ String newline (render bs))
      by (rewrite !append_assoc; reflexivity).
    rewrite (strings_Split_line _ _ _ Hline).
    cbn [omap list_omap]. rewrite IH.
    unfold binding_of at 1. rewrite Htl.
    change (key +:+ "=" +:+ value) with (key +:+ String "=" value).
    rewrite (strings_SplitN_2_cut _ _ _ Hk), Htk, Htv. reflexivity.
Qed.

Lemma getEnv_run key ρ :
  getEnv key ρ
  = (Ok (default "" (env ρ !! key)),
     {| env := env ρ; logged := logged ρ ++ warning_for (env ρ) key |}).
Proof.
  unfold getEnv, warning_for. destruct (env ρ !! key); [|reflexivity].
  rewrite app_nil_r. destruct ρ; reflexivity.
Qed.

Lemma loadEnvironment_run text ρ :
  loadEnvironment (inl (inl text)) ρ
  = (Ok tt,
     {| env := assign (bindings_of text) (env ρ); logged := logged ρ |}).
Proof. unfold loadEnvironment, bindings_of. apply for_each_load_line. Qed.

(** X1.  Loading a [.env] that could be read never fails and never panics
    ([parts[1]] exists whenever the line holds an equals sign) and logs
    nothing; afterwards a key has the value of the last line that binds
    it, and what it had before when no line does. *)
Theorem loadEnvironment_last_binding_wins text ρ key :
  exists ρ',
    loadEnvironment (inl (inl text)) ρ = (Ok tt, ρ')
    /\ logged ρ' = logged ρ
    /\ env ρ' !! key
       = match last_bound (bindings_of text) key with
         | Some value => Some value
         | None => env ρ !! key
         end.
Proof.
  eexists. split; [apply loadEnvironment_run|].
  split; [reflexivity|]. apply assign_lookup.
Qed.

(** X2.  Bindings written one [key=value] line each and loaded into the
    empty map are read back by [getEnv]: a bound key gives the value of its
    last binding and logs nothing, an unbound key gives the empty string
    and logs one warning. *)
Theorem rendered_bindings_read_back bs key log :
  strings_TrimSpace "" = "" ->
  Forall plain_binding bs ->
  exists ρ',
    bind (loadEnvironment (inl (inl (render bs)))) (fun _ => getEnv key)
      (mkProc ∅ log)
    = (Ok (default "" (last_bound bs key)), ρ')
    /\ logged ρ'
       = log ++ match last_bound bs key with
                | Some _ => []
                | None => [Printed ("Warning: Environment variable " +:+ key
                                    +:+ " not found" +:+ String newline "")]
                end.
Proof.
  intros Hempty Hbs. unfold bind.
  rewrite loadEnvironment_run, getEnv_run.
  rewrite (bindings_of_render bs Hempty Hbs).
  cbn [env logged]. unfold warning_for.
  rewrite assign_lookup, lookup_empty.
  destruct (last_bound bs key); eexists; split; reflexivity.
Qed.

(** X3.  When [.env] was read, [main] reaches [http.ListenAndServe] with
    the address [HOST:PORT], each part being the value loaded or empty,
    and with the recovered handler on [/hash]; a part that is not set is
    warned about twice, once before and once after the banner.  When
    [.env] cannot be opened or read, [main] ends in [log.Fatal] with [env]
    as it was. *)
Theorem main_listens_on_host_port :
  (forall text ρ,
     let m := assign (bindings_of text) (env ρ) in
     let host := default "" (m !! "HOST") in
     let port := default "" (m !! "PORT") in
     main (inl (inl text)) ρ
     = (Ok {| Addr := host +:+ ":" +:+ port;
              Handlers := [("/hash", recoverMiddleware handleHash)] |},
        {| env := m;
           logged :=
             logged ρ ++ warning_for m "HOST" ++ warning_for m "PORT"
               ++ [Printed ("Server running on http://" +:+ host +:+ ":"
                            +:+ port)]
               ++ warning_for m "HOST" ++ warning_for m "PORT" |}))
  /\ (forall err ρ,
        main (inr err) ρ
        = (Err "exit status 1",
           {| env := env ρ;
              logged := logged ρ
                ++ [Fatal ["Failed to open .env file:"; err]] |}))
  /\ (forall err ρ,
        main (inl (inr err)) ρ
        = (Err "exit status 1",
           {| env := env ρ;
              logged := logged ρ
                ++ [Fatal ["Failed to read .env file:"; err]] |})).
Proof.
  split; [|split; reflexivity].
  intros text ρ m host port. unfold main.
  unfold bind at 1. rewrite loadEnvironment_run.
  unfold bind at 1. rewrite getEnv_run.
  unfold bind at 1. rewrite getEnv_run.
  unfold bind at 1. unfold log_Printf at 1.
  unfold bind at 1. rewrite getEnv_run.
  unfold bind at 1. rewrite getEnv_run.
  unfold ret. cbn [env logged]. fold m. fold host. fold port.
  rewrite <- !app_assoc. reflexivity.
Qed.

(** ** The handler and its cache *)

(** X4.  Behind [recoverMiddleware] the handler never panics and every
    request gets exactly one reply: a panic of [handleHash] happens before
    anything is written, so the status-500 reply is the only one. *)
Theorem every_request_gets_one_reply r σ :
  exists σ' reply,
    recoverMiddleware handleHash r σ = (Ok tt, σ')
    /\ written σ' = written σ ++ [reply].
Proof.
  unfold recoverMiddleware.
  destruct (handleHash_ending r σ)
    as [body code σ' Hc Hw | msg σ' Hc Hw | key val Hk Hhit
        | key skinBytes hashes h' Hk Hmiss Hrun].
  - exists σ'. eexists. split; [reflexivity | exact Hw].
  - eexists. eexists. split; [reflexivity|]. cbn. rewrite Hw. reflexivity.
  - eexists. eexists. split; reflexivity.
  - eexists. eexists. split; reflexivity.
Qed.

(** X5.  No request removes or rebinds a cache entry: a key bound before
    the request is bound to the same response after it. *)
Theorem cache_entries_persist r σ key val :
  cache σ !! key = Some val ->
  cache (snd (recoverMiddleware handleHash r σ)) !! key = Some val.
Proof.
  intros Hbound.
  destruct (recovered_ending r σ) as (σ' & Hrun & Hcases). rewrite Hrun.
  cbn [snd].
  destruct Hcases as [(Hc & _)
                     | [(k & v & _ & _ & ->)
                       | (k & skinBytes & hashes & h' & _ & Hmiss & _ & Hc
                          & _)]].
  - rewrite Hc. exact Hbound.
  - exact Hbound.
  - rewrite Hc. rewrite lookup_insert_ne; [exact Hbound|].
    intros ->. congruence.
Qed.

(** X6.  A request that was answered with a response, repeated in the
    state it left, is answered from the cache with the same response:
    the cache and the store of images stay as they are, so nothing is
    decoded again. *)
Theorem answered_request_repeats_from_cache r σ val :
  last (written (snd (recoverMiddleware handleHash r σ)))
  = Some (http.JSONReply val) ->
  recoverMiddleware handleHash r (snd (recoverMiddleware handleHash r σ))
  = (Ok tt,
     add_reply (snd (recoverMiddleware handleHash r σ)) (http.JSONReply val)).
Proof.
  destruct (recovered_ending r σ) as (σ' & Hrun & Hcases). rewrite Hrun.
  cbn [snd]. intros Hlast.
  assert (Hhit : exists key,
             request_cache_key r = Some key /\ cache σ' !! key = Some val).
  { destruct Hcases as [(_ & body & code & Hw)
                       | [(k & v & Hk & Hbound & ->)
                         | (k & skinBytes & hashes & h' & Hk & _ & _ & Hc
                            & Hw)]].
    - rewrite Hw, last_snoc in Hlast. discriminate.
    - cbn [add_reply written] in Hlast. rewrite last_snoc in Hlast.
      injection Hlast as ->. exists k. auto.
    - rewrite Hw, last_snoc in Hlast. injection Hlast as ->.
      exists k. split; [exact Hk|]. rewrite Hc. apply lookup_insert_eq. }
  destruct Hhit as (key & Hk & Hbound).
  unfold recoverMiddleware.
  rewrite (handleHash_hit r σ' key val Hk Hbound). reflexivity.
Qed.

(** X7.  The key of a URL request and the key of an upload are never
    equal: neither source is ever answered with an entry of the other. *)
Theorem url_and_upload_keys_differ r1 r2 key1 key2 :
  http.query_url r1 <> "" ->
  http.query_url r2 = "" ->
  request_cache_key r1 = Some key1 ->
  request_cache_key r2 = Some key2 ->
  key1 <> key2.
Proof.
  unfold request_cache_key, url_cache_key, upload_cache_key.
  intros Hurl1 Hurl2.
  rewrite bool_decide_eq_true_2 by exact Hurl1.
  rewrite bool_decide_eq_false_2 by (intros Hne; apply Hne; exact Hurl2).
  destruct (url_Parse (http.query_url r1)); [|discriminate].
  destruct (http.FormFile r2) as [[raw|]|]; try discriminate.
  intros [= <-] [= <-]. discriminate.
Qed.

Lemma computeHashes_well_formed data (h h' : Heap) res :
  computeHashes data h = (Ok res, h') -> well_formed res.
Proof.
  intros Hrun.
  destruct (computeHashes_Ok _ _ _ _ Hrun)
    as (img & format & _ & _ & Hres & _).
  destruct (engine_png_Ok img res Hres)
    as (n & encoded & _ & _ & _ & Hstd & Halpha & Hcompact).
  pose proof (hashBuffer_hex (header_of img ++ image.Pix n)) as [Hlen Hhex].
  unfold well_formed. rewrite Hstd, Hcompact, Halpha.
  split; [apply hashBuffer_hex|]. split; [apply hashBuffer_hex|].
  split; [|reflexivity]. split.
  - apply first_chars_length. rewrite Hlen. lia.
  - apply first_chars_all. exact Hhex.
Qed.

(** X8.  If every response in the cache is well formed (two digests of 64
    lower-case hexadecimal characters and the 16-character prefix of the
    second) then so is every response in the cache after a request, and
    so is the response the request is answered with. *)
Theorem cache_stays_well_formed r σ :
  (forall key val, cache σ !! key = Some val -> well_formed val) ->
  (forall key val,
     cache (snd (recoverMiddleware handleHash r σ)) !! key = Some val ->
     well_formed val)
  /\ (forall val,
        last (written (snd (recoverMiddleware handleHash r σ)))
        = Some (http.JSONReply val) ->
        well_formed val).
Proof.
  intros Hwf.
  destruct (recovered_ending r σ) as (σ' & Hrun & Hcases). rewrite Hrun.
  cbn [snd].
  destruct Hcases as [(Hc & body & code & Hw)
                     | [(k & v & Hk & Hbound & ->)
                       | (k & skinBytes & hashes & h' & Hk & _ & Hcomp & Hc
                          & Hw)]].
  - split.
    + intros key val. rewrite Hc. apply Hwf.
    + intros val. rewrite Hw, last_snoc. discriminate.
  - split.
    + exact Hwf.
    + intros val. cbn [add_reply written]. rewrite last_snoc.
      intros [= <-]. eapply Hwf. exact Hbound.
  - pose proof (computeHashes_well_formed _ _ _ _ Hcomp) as Hnew. split.
    + intros key val. rewrite Hc.
      destruct (decide (k = key)) as [->|Hne].
      * rewrite lookup_insert_eq. intros [= <-]. exact Hnew.
      * rewrite lookup_insert_ne by exact Hne. apply Hwf.
    + intros val. rewrite Hw, last_snoc. intros [= <-]. exact Hnew.
Qed.

(** X9.  When [computeHashes] returns an error for an upload that is not
    in the cache (bytes that do not decode, or an image that is not a
    PNG), the reply is "Failed to compute hashes" with the error as
    details and status 500, and the cache is as it was. *)
Theorem failed_upload_is_status_500 r σ raw err h' :
  http.query_url r = "" ->
  http.FormFile r = inl (inl raw) ->
  cache σ !! ("sha256:" +:+ sha256Hex raw) = None ->
  computeHashes raw (heap σ) = (Err err, h') ->
  handleHash r σ
  = (Ok tt,
     {| cache := cache σ;
        heap := h';
        written := written σ
          ++ [http.ErrorReply (error_body "Failed to compute hashes" err)
                http.StatusInternalServerError] |}).
Proof.
  intros Hurl Hfile Hmiss Hrun. unfold handleHash.
  rewrite bool_decide_eq_false_2 by (intros Hne; apply Hne; exact Hurl).
  rewrite Hfile. unfold bind, cache_Load. rewrite Hmiss.
  unfold hash_and_store, on_heap. rewrite Hrun. reflexivity.
Qed.

(** X10.  A request with a [url] parameter is served from the URL alone:
    whatever file is uploaded with it is never looked at. *)
Theorem url_parameter_takes_precedence r file σ :
  http.query_url r <> "" ->
  handleHash r σ = handleHash (http.mkRequest (http.query_url r) file) σ.
Proof.
  intros Hurl. unfold handleHash. cbn [http.query_url].
  rewrite !bool_decide_eq_true_2 by exact Hurl. reflexivity.
Qed.

(** ** The engine *)

Lemma engine_png_cells img : (length (snd (engine_png img)) <= 2)%nat.
Proof.
  unfold engine_png.
  destruct (image.NewNRGBA (Image_Bounds img)); cbn; try lia.
  destruct (cell_loops _ _ (converted img)) as [[[]|e|msg] n]; cbn; try lia.
  destruct (imaging_Encode img imaging_PNG); cbn; lia.
Qed.

(** X11.  Whatever its outcome (a response, an error or a panic),
    [computeHashes] leaves every object that existed before the call as it
    was: it only adds objects, two at most (the decoded image and its
    copy). *)
Theorem computeHashes_only_adds_objects data (h : Heap) :
  exists cells,
    snd (computeHashes data h) = h ++ cells /\ (length cells <= 2)%nat.
Proof.
  destruct (image_Decode data) as [[img format]|err] eqn:Hdec.
  - destruct (decide (strings_ToLower format = "png")) as [Hfmt|Hfmt].
    + rewrite (computeHashes_engine data h img format Hdec Hfmt).
      exists (snd (engine_png img)). split; [reflexivity|].
      apply engine_png_cells.
    + rewrite (computeHashes_other_format data h img format Hdec Hfmt).
      exists [ObjImage img]. split; [reflexivity | cbn; lia].
  - rewrite (computeHashes_decode_error data h err Hdec).
    exists []. split; [symmetry; apply app_nil_r | cbn; lia].
Qed.

Lemma normalize_pixels_idempotent pix :
  normalize_pixels (normalize_pixels pix) = normalize_pixels pix.
Proof.
  induction pix as [| | | |r g b a rest IH] using list_ind4; try reflexivity.
  cbn [normalize_pixels].
  destruct (Byte.eqb a x00) eqn:Ha; cbn [app normalize_pixels];
    rewrite Ha, IH; reflexivity.
Qed.



(** X13.  Running the two loops a second time changes nothing more: on a
    copy of [width * height] pixels anchored at the origin, the pass
    followed by itself leaves the store as the pass alone does. *)
Theorem blanking_twice_is_blanking_once (h : Heap) rgba m w hh :
  (rgba < length h)%nat ->
  0 <= w -> 0 <= hh ->
  image.Stride m = 4 * w ->
  image.Min (image.Rect m) = image.mkPoint 0 0 ->
  length (image.Pix m) = Z.to_nat (4 * w * hh) ->
  let pass :=
    for_range hh (fun y =>
      for_range w (fun x => blank_if_transparent rgba x y)) in
  bind pass (fun _ => pass) (<[rgba := ObjNRGBA m]> h)
  = pass (<[rgba := ObjNRGBA m]> h).
Proof.
  intros Hlt Hw Hh Hstride Hmin Hlen pass. unfold bind, pass.
  rewrite (blank_loops h rgba m w hh Hlt Hw Hh Hstride Hmin Hlen).
  rewrite (blank_loops h rgba
             (with_Pix m (normalize_pixels (image.Pix m))) w hh Hlt Hw Hh
             Hstride Hmin)
    by (cbn [with_Pix image.Pix]; rewrite normalize_pixels_length;
        exact Hlen).
  cbn [with_Pix image.Pix image.Stride image.Rect].
  rewrite normalize_pixels_idempotent. reflexivity.
Qed.

Lemma PutUint32_uint32_inj a b :
  0 <= a < 2 ^ 32 -> 0 <= b < 2 ^ 32 ->
  PutUint32 (uint32 a) = PutUint32 (uint32 b) -> a = b.
Proof.
  intros Ha Hb Heq.
  pose proof (BigEndian_PutUint32 a) as Ea.
  pose proof (BigEndian_PutUint32 b) as Eb.
  rewrite Heq, Eb in Ea.
  rewrite (Z.mod_small a), (Z.mod_small b) in Ea by lia. congruence.
Qed.

(** X14.  The buffer that is hashed tells the dimensions and the pixels
    apart: two decoded images (narrower and lower than [2^32]) with the same
    buffer have the same width, the same height and the same normalised
    samples, so the same bytes laid out as 1x4 and as 4x1 are hashed
    differently. *)
Theorem alpha_buffer_separates_dimensions img1 img2 :
  0 <= image.Dx (Image_Bounds img1) < 2 ^ 32 ->
  0 <= image.Dy (Image_Bounds img1) < 2 ^ 32 ->
  0 <= image.Dx (Image_Bounds img2) < 2 ^ 32 ->
  0 <= image.Dy (Image_Bounds img2) < 2 ^ 32 ->
  header_of img1 ++ normalized img1 = header_of img2 ++ normalized img2 ->
  image.Dx (Image_Bounds img1) = image.Dx (Image_Bounds img2)
  /\ image.Dy (Image_Bounds img1) = image.Dy (Image_Bounds img2)
  /\ normalized img1 = normalized img2.
Proof.
  intros Hx1 Hy1 Hx2 Hy2 Heq.
  apply app_inj_1 in Heq as [Hhead Hpix]; [|reflexivity].
  unfold header_of in Hhead.
  apply app_inj_1 in Hhead as [Hw Hh]; [|reflexivity].
  split; [exact (PutUint32_uint32_inj _ _ Hx1 Hx2 Hw)|].
  split; [exact (PutUint32_uint32_inj _ _ Hy1 Hy2 Hh) | exact Hpix].
Qed.

Lemma append_inv_l (s t u : string) : s +:+ t = s +:+ u -> t = u.
Proof.
  induction s as [|c s' IH]; [auto|].
  rewrite !append_cons. intros [= Heq]. auto.
Qed.

Lemma hex_bytes_digits b :
  byte_of_Z (hex_value (hex_digit (Z.shiftr (Z_of_byte b) 4)) * 16
             + hex_value (hex_digit (Z.land (Z_of_byte b) 15))) = b.
Proof. destruct b; reflexivity. Qed.

Lemma hex_bytes_EncodeToString src :
  hex_bytes (hex_EncodeToString src) = src.
Proof.
  induction src as [|b rest IH]; [reflexivity|].
  cbn [hex_EncodeToString hex_bytes]. rewrite hex_bytes_digits, IH.
  reflexivity.
Qed.

(** X15.  The hexadecimal string loses nothing of the digest: read back
    two digits to a byte, [hashBuffer] gives the 32 bytes of the SHA-256
    sum, so two buffers have the same hash string, and two uploads the same
    cache key, only if their SHA-256 sums are equal. *)
Theorem hash_string_is_faithful a b :
  hex_bytes (hashBuffer a) = sha256.Sum256 a
  /\ (hashBuffer a = hashBuffer b -> sha256.Sum256 a = sha256.Sum256 b)
  /\ ("sha256:" +:+ sha256Hex a = "sha256:" +:+ sha256Hex b ->
      sha256.Sum256 a = sha256.Sum256 b).
Proof.
  assert (Hback : forall d, hex_bytes (hashBuffer d) = sha256.Sum256 d)
    by (intros d; apply hex_bytes_EncodeToString).
  split; [apply Hback|]. split.
  - intros Heq. rewrite <- (Hback a), <- (Hback b), Heq. reflexivity.
  - intros Heq. apply append_inv_l in Heq.
    change (sha256Hex a) with (hashBuffer a) in Heq.
    change (sha256Hex b) with (hashBuffer b) in Heq.
    rewrite <- (Hback a), <- (Hback b), Heq. reflexivity.
Qed.

(** ** The paths of a URL request *)

(** X16.  A URL that is not in the cache, fetched with status 200 and a
    body that could be read and hashed, is answered with the response of
    [computeHashes] on the body, and that response is bound to the key of
    the URL. *)
Theorem fetched_skin_is_hashed_and_cached r σ parsed resp raw hashes h' :
  http.query_url r <> "" ->
  url_Parse (http.query_url r) = inl parsed ->
  cache σ !! ("url:" +:+ URL_String (strip_query_fragment parsed)) = None ->
  http_Get (http.query_url r) = (Some resp, None) ->
  http.StatusCode resp = 200 ->
  http.Body resp = inl raw ->
  computeHashes raw (heap σ) = (Ok hashes, h') ->
  handleHash r σ
  = (Ok tt,
     {| cache := <["url:" +:+ URL_String (strip_query_fragment parsed)
                   := hashes]> (cache σ);
        heap := h';
        written := written σ ++ [http.JSONReply hashes] |}).
Proof.
  intros Hurl Hparse Hmiss Hget Hcode Hbody Hrun.
  unfold handleHash, normalizeURL.
  rewrite bool_decide_eq_true_2 by exact Hurl. rewrite Hparse.
  rewrite bool_decide_eq_false_2 by (intros Hne; apply Hne; reflexivity).
  unfold bind at 1. unfold cache_Load at 1.
  unfold strip_query_fragment in *. rewrite Hmiss, Hget.
  unfold bind at 1.
  rewrite bool_decide_eq_false_2 by (intros Hne; apply Hne; reflexivity).
  unfold bind at 1, lift at 1. cbn [StatusCode]. unfold ret at 1.
  rewrite bool_decide_eq_false_2 by (intros Hne; apply Hne; exact Hcode).
  unfold bind at 1, lift at 1. cbn [ReadAll_Body]. rewrite Hbody.
  rewrite bool_decide_eq_false_2 by (intros Hne; apply Hne; reflexivity).
  unfold hash_and_store, on_heap. rewrite Hrun. reflexivity.
Qed.

(** X17.  A [url] parameter that [url.Parse] rejects is answered
    "Invalid URL" with the parse error and status 400; the cache is not
    consulted and nothing is fetched or decoded. *)
Theorem invalid_url_is_status_400 r σ err :
  http.query_url r <> "" ->
  url_Parse (http.query_url r) = inr err ->
  normalizeURL (http.query_url r) = (http.query_url r, Some err)
  /\ handleHash r σ
     = (Ok tt,
        add_reply σ
          (http.ErrorReply (error_body "Invalid URL" err)
             http.StatusBadRequest)).
Proof.
  intros Hurl Hparse.
  assert (Hnorm : normalizeURL (http.query_url r)
                  = (http.query_url r, Some err))
    by (unfold normalizeURL; rewrite Hparse; reflexivity).
  split; [exact Hnorm|].
  unfold handleHash. rewrite bool_decide_eq_true_2 by exact Hurl.
  rewrite Hnorm. rewrite bool_decide_eq_true_2 by discriminate.
  reflexivity.
Qed.

(** X18.  Where [draw.Draw] copies the decoded pixels as they are, the
    buffer hashed into [alpha_normalized_hash] is the header followed by the
    decoded pixels, blanked where the decoded alpha is 0 and unchanged
    elsewhere. *)
Theorem exact_copy_hashes_decoded_pixels
    (At : Image -> Z -> Z -> color.NRGBA) data :
  (forall img format,
     image_Decode data = inl (img, format) ->
     strings_ToLower format = "png" ->
     well_decoded img /\ exact_copy At img) ->
  hashes_decoded_pixels At data.
Proof.
  intros Hlib h h' res Hrun.
  destruct (computeHashes_Ok_png data h h' res Hrun)
    as (img & format & Hdec & Hfmt).
  destruct (Hlib img format Hdec Hfmt) as [Hwd Hexact].
  rewrite (computeHashes_png data h img format Hdec Hfmt Hwd) in Hrun.
  destruct (imaging_Encode img imaging_PNG) as [encoded|err];
    [|discriminate].
  injection Hrun as <- _.
  destruct Hwd as [(Hmin & Hw & Hh & Hfit) (Hlen & _ & _)].
  assert (Hsize : length (image.Pix (converted img))
                  = Z.to_nat (4 * image.Dx (Image_Bounds img)
                              * image.Dy (Image_Bounds img)))
    by (rewrite Hlen; apply length_replicate).
  exists img, format, (normalized img).
  split; [exact Hdec|]. split; [reflexivity|].
  split.
  { unfold normalized. rewrite normalize_pixels_length, Hsize. lia. }
  intros x y Hx Hy w c.
  destruct (Hexact x y Hx Hy) as (Er & Eg & Eb & Ea).
  fold w in Er, Eg, Eb, Ea.
  unfold normalized.
  rewrite !(sample_index _ w x y) in * by lia.
  destruct (normalize_pixels_pixel (Z.to_nat (y * w + x))
              (image.Pix (converted img)))
    as (r & g & b & a & (Fr & Fg & Fb & Fa) & Ha & Hzero & Hkept).
  { rewrite Hsize. unfold w. nia. }
  subst c.
  assert (r = color.R (At img x y)) as -> by congruence.
  assert (g = color.G (At img x y)) as -> by congruence.
  assert (b = color.B (At img x y)) as -> by congruence.
  assert (a = color.A (At img x y)) as -> by congruence.
  auto.
Qed.

(** X19.  Where [draw.Draw] copies the decoded pixels of both images as
    they are, two PNG images of equal dimensions whose decoded pixels
    differ only in that the colour under alpha 0 is zeroed in the second
    get the same [alpha_normalized_hash]. *)
Theorem exact_copies_ignore_hidden_colour
    (At : Image -> Z -> Z -> color.NRGBA) data1 data2 :
  (forall img format,
     image_Decode data1 = inl (img, format) ->
     strings_ToLower format = "png" ->
     well_decoded img /\ exact_copy At img) ->
  (forall img format,
     image_Decode data2 = inl (img, format) ->
     strings_ToLower format = "png" ->
     well_decoded img /\ exact_copy At img) ->
  hidden_colour_is_ignored At data1 data2.
Proof.
  intros Hlib1 Hlib2 h1 h2 h1' h2' res1 res2 img1 img2 format1 format2
    Hdec1 Hdec2 Hrun1 Hrun2 Hdx Hdy Hzeroed.
  destruct (computeHashes_Ok_png _ _ _ _ Hrun1) as (i1 & f1 & Hd1 & Hf1).
  destruct (computeHashes_Ok_png _ _ _ _ Hrun2) as (i2 & f2 & Hd2 & Hf2).
  rewrite Hdec1 in Hd1. injection Hd1 as <- <-.
  rewrite Hdec2 in Hd2. injection Hd2 as <- <-.
  destruct (Hlib1 img1 format1 Hdec1 Hf1) as [Hwd1 Hexact1].
  destruct (Hlib2 img2 format2 Hdec2 Hf2) as [Hwd2 Hexact2].
  rewrite (computeHashes_png _ _ _ _ Hdec1 Hf1 Hwd1) in Hrun1.
  rewrite (computeHashes_png _ _ _ _ Hdec2 Hf2 Hwd2) in Hrun2.
  destruct (imaging_Encode img1 imaging_PNG) as [e1|]; [|discriminate].
  destruct (imaging_Encode img2 imaging_PNG) as [e2|]; [|discriminate].
  injection Hrun1 as <- _. injection Hrun2 as <- _.
  cbn [AlphaNormalized fingerprint_of]. f_equal.
  unfold alpha_buffer, header_of, normalized. rewrite <- Hdx, <- Hdy.
  f_equal.
  destruct Hwd1 as [(_ & Hw & Hh & _) (Hlen1 & _ & _)].
  destruct Hwd2 as [_ (Hlen2 & _ & _)].
  apply (same_visible_normalize _ _ _ _ Hw Hh).
  - rewrite Hlen1. cbn [blank_NRGBA image.Pix].
    rewrite length_replicate. nia.
  - rewrite Hlen2. cbn [blank_NRGBA image.Pix].
    rewrite length_replicate, <- Hdx, <- Hdy. nia.
  - intros x y Hx Hy.
    destruct (Hexact1 x y Hx Hy) as (Er & Eg & Eb & Ea).
    destruct (Hexact2 x y) as (Fr & Fg & Fb & Fa);
      [rewrite <- Hdx; exact Hx | rewrite <- Hdy; exact Hy |].
    rewrite <- Hdx in Fr, Fg, Fb, Fa.
    destruct (Hzeroed x y Hx Hy) as [Hzero Hkept].
    exists (color.A (At img1 x y)).
    split; [exact Ea|].
    destruct (Byte.byte_eq_dec (color.A (At img1 x y)) x00) as [Ha|Ha].
    + split.
      * rewrite Fa, (Hzero Ha), Ha. reflexivity.
      * intros Hne. destruct (Hne Ha).
    + rewrite (Hkept Ha) in Fr, Fg, Fb, Fa.
      split; [exact Fa|].
      intros _ c Hc.
      destruct c as [|[|[|c]]]; [congruence | congruence | congruence | lia].
Qed.

End Program.

(** * The program linked with the miniature library *)

Local Abbreviation run_computeHashes :=
  (computeHashes fixture.Image fixture.bounds fixture.Decode fixture.Draw
     fixture.Encode fixture.ToLower).

Local Abbreviation run_handleHash :=
  (handleHash fixture.Image fixture.bounds fixture.Decode fixture.Draw
     fixture.Encode fixture.ToLower fixture.Parse fixture.String_
     fixture.Get).

Local Abbreviation run_paletted :=
  (computeHashes paletted.Image paletted.bounds paletted.Decode paletted.Draw
     paletted.Encode fixture.ToLower).

Local Abbreviation fresh_world :=
  (mkWorld fixture.Image ∅ [] []).

Lemma alpha_normalized_buffer_layout_witness :
  exists img format hw hh pix,
    fixture.Decode fixture.scenario_png = inl (img, format)
    /\ AlphaNormalized fixture.scenario_response
       = hashBuffer ((hw ++ hh) ++ pix)
    /\ length hw = 4%nat
    /\ BigEndian_Uint32 hw = image.Dx (fixture.bounds img) mod 2 ^ 32
    /\ length hh = 4%nat
    /\ BigEndian_Uint32 hh = image.Dy (fixture.bounds img) mod 2 ^ 32
    /\ Z.of_nat (length pix)
       = 4 * image.Dx (fixture.bounds img) * image.Dy (fixture.bounds img)
    /\ forall x y,
         0 <= x < image.Dx (fixture.bounds img) ->
         0 <= y < image.Dy (fixture.bounds img) ->
         let w := image.Dx (fixture.bounds img) in
         let copy :=
           image.Pix (converted fixture.Image fixture.bounds fixture.Draw img)
         in
         exists r g b a,
           (sample copy w x y 0 = Some r /\ sample copy w x y 1 = Some g
            /\ sample copy w x y 2 = Some b
            /\ sample copy w x y 3 = Some a)
           /\ sample pix w x y 3 = Some a
           /\ (a = x00 ->
               sample pix w x y 0 = Some x00 /\ sample pix w x y 1 = Some x00
               /\ sample pix w x y 2 = Some x00)
           /\ (a <> x00 ->
               sample pix w x y 0 = Some r /\ sample pix w x y 1 = Some g
               /\ sample pix w x y 2 = Some b).
Proof.
  apply (alpha_normalized_buffer_layout fixture.Image fixture.bounds
           fixture.Decode fixture.Draw fixture.Encode fixture.ToLower
           fixture.scenario_png []
           (snd (run_computeHashes fixture.scenario_png []))
           fixture.scenario_response).
  - vm_compute. reflexivity.
  - intros img format Hdec _. vm_compute in Hdec. injection Hdec as <- <-.
    repeat split; vm_compute; congruence.
Defined.

Lemma hidden_colour_same_alpha_hash_witness :
  (AlphaNormalized fixture.scenario_response
   = AlphaNormalized fixture.blanked_response
   /\ exists encoded1 encoded2,
        fixture.Encode
          (fixture.mkImage (fixture.origin_rect 2 2) fixture.scenario_pixels)
          imaging_PNG = inl encoded1
        /\ fixture.Encode
             (fixture.mkImage (fixture.origin_rect 2 2) fixture.blanked_pixels)
             imaging_PNG = inl encoded2
        /\ Standard fixture.scenario_response = hashBuffer encoded1
        /\ Standard fixture.blanked_response = hashBuffer encoded2)
  /\ Standard fixture.scenario_response <> Standard fixture.blanked_response.
Proof.
  split; [|vm_compute; congruence].
  apply (hidden_colour_same_alpha_hash fixture.Image fixture.bounds
           fixture.Decode fixture.Draw fixture.Encode fixture.ToLower
           fixture.scenario_png fixture.blanked_png [] []
           (snd (run_computeHashes fixture.scenario_png []))
           (snd (run_computeHashes fixture.blanked_png []))
           fixture.scenario_response fixture.blanked_response
           (fixture.mkImage (fixture.origin_rect 2 2) fixture.scenario_pixels)
           (fixture.mkImage (fixture.origin_rect 2 2) fixture.blanked_pixels)
           "png" "png").
  - vm_compute. reflexivity.
  - vm_compute. reflexivity.
  - vm_compute. reflexivity.
  - vm_compute. reflexivity.
  - repeat split; vm_compute; congruence.
  - repeat split; vm_compute; congruence.
  - reflexivity.
  - reflexivity.
  - intros x y Hx Hy. change (0 <= x < 2) in Hx. change (0 <= y < 2) in Hy.
    assert (Hxy : (x = 0 \/ x = 1) /\ (y = 0 \/ y = 1)) by lia.
    destruct Hxy as [[-> | ->] [-> | ->]]; eexists;
      (split; [vm_compute; reflexivity|]);
      (split; [vm_compute; reflexivity|]);
      intros Ha c Hc; try (exfalso; apply Ha; reflexivity);
      destruct c as [|[|[|c]]]; try reflexivity; lia.
Defined.

(** C1, as the specification states it, fails for an indexed image with a
    partly transparent palette entry: the pixel is decoded as
    R=1, G=2, B=3, A=1, [draw.Draw] writes it as 0, 1, 2, 1, and the hash is
    not the hash of the header followed by the decoded pixel. *)
Lemma indexed_pixel_is_not_kept :
  ~ hashes_decoded_pixels paletted.Image paletted.bounds paletted.Decode
      paletted.Draw paletted.Encode fixture.ToLower paletted.At
      paletted.faint_indexed.
Proof.
  intros Hclaim.
  destruct (Hclaim []
              (snd (run_paletted paletted.faint_indexed []))
              paletted.faint_indexed_response)
    as (img & format & pix & Hdec & Hhash & Hlen & Hpix).
  { vm_compute. reflexivity. }
  vm_compute in Hdec. injection Hdec as <- <-.
  change (Z.of_nat (length pix) = 4) in Hlen.
  assert (Hsamples : sample pix 1 0 0 3 = Some x01
                     /\ sample pix 1 0 0 0 = Some x01
                     /\ sample pix 1 0 0 1 = Some x02
                     /\ sample pix 1 0 0 2 = Some x03).
  { destruct (Hpix 0 0) as (Ha & _ & Hrgb).
    - change (0 <= 0 < 1). lia.
    - change (0 <= 0 < 1). lia.
    - split; [exact Ha|]. apply Hrgb. vm_compute. discriminate. }
  destruct Hsamples as (Ha & Hr & Hg & Hb).
  revert Hhash.
  destruct pix as [|p0 [|p1 [|p2 [|p3 [|p4 rest]]]]];
    try discriminate Ha; [|cbn [length] in Hlen; lia].
  vm_compute in Ha, Hr, Hg, Hb.
  injection Hr as ->. injection Hg as ->. injection Hb as ->.
  injection Ha as ->.
  intros Hhash. vm_compute in Hhash. discriminate Hhash.
Qed.

(** C2, as the specification states it, fails for a truecolour and an
    indexed image of the same two decoded pixels, R=1, G=2, B=3, A=1 and a
    fully transparent one, with the colour (9, 9, 9) under the transparent
    pixel of the first and zeroed in the second: the two get different
    [alpha_normalized_hash] values. *)
Lemma same_pixels_different_alpha_hash :
  ~ hidden_colour_is_ignored paletted.Image paletted.bounds paletted.Decode
      paletted.Draw paletted.Encode fixture.ToLower paletted.At
      paletted.veiled_truecolour paletted.veiled_indexed.
Proof.
  intros Hclaim.
  specialize (Hclaim [] []
    (snd (run_paletted paletted.veiled_truecolour []))
    (snd (run_paletted paletted.veiled_indexed []))
    paletted.veiled_truecolour_response paletted.veiled_indexed_response
    (paletted.TrueColour [x01; x02; x03; x01; x09; x09; x09; x00] 2 1)
    (paletted.Indexed [x00; x01] 2 1
       [color.mkNRGBA x01 x02 x03 x01; color.mkNRGBA x00 x00 x00 x00])
    "png" "png").
  assert (Hneq : AlphaNormalized paletted.veiled_truecolour_response
                 <> AlphaNormalized paletted.veiled_indexed_response)
    by (vm_compute; discriminate).
  apply Hneq, Hclaim.
  - vm_compute. reflexivity.
  - vm_compute. reflexivity.
  - vm_compute. reflexivity.
  - vm_compute. reflexivity.
  - reflexivity.
  - reflexivity.
  - intros x y Hx Hy. change (0 <= x < 2) in Hx. change (0 <= y < 1) in Hy.
    assert (Hxy : (x = 0 \/ x = 1) /\ y = 0) by lia.
    destruct Hxy as [[-> | ->] ->]; split; intros Ha;
      try reflexivity; try discriminate;
      exfalso; apply Ha; reflexivity.
Qed.

Lemma standard_hash_of_original_witness :
  exists img format encoded copy,
    fixture.Decode fixture.scenario_png = inl (img, format)
    /\ fixture.Encode img imaging_PNG = inl encoded
    /\ Standard fixture.scenario_response = hashBuffer encoded
    /\ snd (run_computeHashes fixture.scenario_png [])
       = [] ++ [ObjImage fixture.Image img; ObjNRGBA fixture.Image copy]
    /\ AlphaNormalized fixture.scenario_response
       = hashBuffer (header_of fixture.Image fixture.bounds img
                       ++ image.Pix copy).
Proof.
  apply (standard_hash_of_original fixture.Image fixture.bounds
           fixture.Decode fixture.Draw fixture.Encode fixture.ToLower
           fixture.scenario_png []
           (snd (run_computeHashes fixture.scenario_png []))
           fixture.scenario_response).
  vm_compute. reflexivity.
Defined.

Lemma computeHashes_rejects_non_png_witness :
  fst (run_computeHashes fixture.scenario_jpeg [])
  = Err "only PNG images are supported".
Proof.
  apply (proj1 (proj2 (computeHashes_rejects_non_png fixture.Image
                         fixture.bounds fixture.Decode fixture.Draw
                         fixture.Encode fixture.ToLower
                         fixture.scenario_jpeg []))
           (fixture.mkImage (fixture.origin_rect 2 2) fixture.scenario_pixels)
           "jpeg").
  - vm_compute. reflexivity.
  - vm_compute. congruence.
Defined.

Lemma computeHashes_deterministic_witness :
  fixture.scenario_response = fixture.scenario_response
  /\ Standard fixture.scenario_response = Standard fixture.scenario_response
  /\ AlphaNormalized fixture.scenario_response
     = AlphaNormalized fixture.scenario_response
  /\ AlphaNormalizedCompact fixture.scenario_response
     = AlphaNormalizedCompact fixture.scenario_response.
Proof.
  apply (computeHashes_deterministic fixture.Image fixture.bounds
           fixture.Decode fixture.Draw fixture.Encode fixture.ToLower
           fixture.scenario_png
           []
           [ObjNRGBA fixture.Image (image.mkNRGBA [] 0 (fixture.origin_rect 0 0))]
           (snd (run_computeHashes fixture.scenario_png []))
           (snd (run_computeHashes fixture.scenario_png
                   [ObjNRGBA fixture.Image
                      (image.mkNRGBA [] 0 (fixture.origin_rect 0 0))]))).
  - vm_compute. reflexivity.
  - vm_compute. reflexivity.
Defined.

Lemma compact_is_prefix_witness :
  AlphaNormalizedCompact fixture.scenario_response
  = first_chars 16 (AlphaNormalized fixture.scenario_response).
Proof.
  apply (compact_is_prefix fixture.Image fixture.bounds
           fixture.Decode fixture.Draw fixture.Encode fixture.ToLower
           fixture.scenario_png []
           (snd (run_computeHashes fixture.scenario_png []))).
  vm_compute. reflexivity.
Defined.

Lemma computeHashes_total_witness :
  (exists e, fst (run_computeHashes fixture.scenario_png []) = Err e)
  \/ (exists res,
        fst (run_computeHashes fixture.scenario_png []) = Ok res
        /\ lower_hex_of_length 64 (Standard res)
        /\ lower_hex_of_length 64 (AlphaNormalized res)
        /\ lower_hex_of_length 16 (AlphaNormalizedCompact res)
        /\ slice_to (AlphaNormalized res) 16
           = Ok (AlphaNormalizedCompact res)).
Proof.
  apply (computeHashes_total fixture.Image fixture.bounds
           fixture.Decode fixture.Draw fixture.Encode fixture.ToLower
           fixture.scenario_png []).
  intros img format Hdec _. vm_compute in Hdec. injection Hdec as <- <-.
  repeat split; vm_compute; congruence.
Defined.

Lemma cache_key_derivation_witness :
  url_cache_key fixture.Parse fixture.String_ "http://x/img.png?a=1#frag"
  = url_cache_key fixture.Parse fixture.String_ "http://x/img.png?b=2".
Proof.
  apply (proj2 (proj2 (proj2 (proj2
           (cache_key_derivation fixture.Image fixture.bounds fixture.Decode
              fixture.Draw fixture.Encode fixture.ToLower fixture.Parse
              fixture.String_ fixture.Get))))
           "http://x/img.png?a=1#frag" "http://x/img.png?b=2"
           (url.mkURL "http" "" None "x" "/img.png" "" false false
              "a=1" "frag" "")
           (url.mkURL "http" "" None "x" "/img.png" "" false false
              "b=2" "" "")).
  - vm_compute. reflexivity.
  - vm_compute. reflexivity.
  - repeat split; reflexivity.
Defined.

Lemma errors_leave_cache_unchanged_witness :
  (forall body code,
     last (written fixture.Image
             (snd (recoverMiddleware fixture.Image run_handleHash
                     fixture.missing_page fresh_world)))
     = Some (http.ErrorReply body code) ->
     cache fixture.Image
       (snd (recoverMiddleware fixture.Image run_handleHash
               fixture.missing_page fresh_world))
     = cache fixture.Image fresh_world)
  /\ (cache fixture.Image
        (snd (recoverMiddleware fixture.Image run_handleHash
                fixture.missing_page fresh_world))
      <> cache fixture.Image fresh_world ->
      exists key skinBytes hashes h',
        request_cache_key fixture.Parse fixture.String_ fixture.missing_page
        = Some key
        /\ run_computeHashes skinBytes (heap fixture.Image fresh_world)
           = (Ok hashes, h')
        /\ cache fixture.Image
             (snd (recoverMiddleware fixture.Image run_handleHash
                     fixture.missing_page fresh_world))
           = <[key := hashes]> (cache fixture.Image fresh_world)
        /\ last (written fixture.Image
                   (snd (recoverMiddleware fixture.Image run_handleHash
                           fixture.missing_page fresh_world)))
           = Some (http.JSONReply hashes)).
Proof.
  apply (errors_leave_cache_unchanged fixture.Image fixture.bounds
           fixture.Decode fixture.Draw fixture.Encode fixture.ToLower
           fixture.Parse fixture.String_ fixture.Get
           fixture.missing_page fresh_world
           (fst (recoverMiddleware fixture.Image run_handleHash
                   fixture.missing_page fresh_world))).
  destruct (recoverMiddleware fixture.Image run_handleHash
              fixture.missing_page fresh_world).
  reflexivity.
Defined.

Lemma non_200_status_panics_witness :
  run_handleHash fixture.missing_page fresh_world
  = (Panic nil_deref, fresh_world)
  /\ recoverMiddleware fixture.Image run_handleHash
       fixture.missing_page fresh_world
     = (Ok tt,
        add_reply fixture.Image fresh_world
          (http.ErrorReply
             (error_body "Internal server error" nil_deref)
             http.StatusInternalServerError)).
Proof.
  apply (non_200_status_panics fixture.Image fixture.bounds
           fixture.Decode fixture.Draw fixture.Encode fixture.ToLower
           fixture.Parse fixture.String_ fixture.Get
           fixture.missing_page fresh_world
           (url.mkURL "http" "" None "x" "/missing.png" "" false false
              "" "" "")
           (http.mkResponse 404 (inl []))).
  - vm_compute. congruence.
  - vm_compute. reflexivity.
  - reflexivity.
  - vm_compute. reflexivity.
  - vm_compute. congruence.
Defined.

(** C5 (what the code does).  [normalizeURL] empties [RawQuery] and
    [Fragment] and leaves [ForceQuery] as parsed, so a URL that ends in a
    bare question mark keeps it: it differs in its query string only from
    the same URL with a query, and the two get different keys.  With the
    entry of the second in the cache, the second is answered from it and
    the first is fetched. *)
Lemma bare_question_mark_kept :
  normalizeURL fixture.Parse fixture.String_ "http://x/img.png?"
  = ("http://x/img.png?", None)
  /\ normalizeURL fixture.Parse fixture.String_ "http://x/img.png?a=1"
     = ("http://x/img.png", None)
  /\ (let cached :=
        mkWorld fixture.Image
          {[ "url:http://x/img.png" := fixture.scenario_response ]} [] [] in
      written fixture.Image
        (snd (run_handleHash
                (http.mkRequest "http://x/img.png?a=1" fixture.no_upload)
                cached))
      = [http.JSONReply fixture.scenario_response]
      /\ written fixture.Image
           (snd (run_handleHash
                   (http.mkRequest "http://x/img.png?" fixture.no_upload)
                   cached))
         = [http.ErrorReply
              (error_body "Failed to fetch image from URL"
                 "dial tcp: no such host")
              http.StatusBadRequest]).
Proof.
  split; [vm_compute; reflexivity|].
  split; [vm_compute; reflexivity|].
  cbv zeta. split.
  - rewrite (handleHash_hit fixture.Image fixture.bounds fixture.Decode
               fixture.Draw fixture.Encode fixture.ToLower fixture.Parse
               fixture.String_ fixture.Get
               (http.mkRequest "http://x/img.png?a=1" fixture.no_upload) _
               "url:http://x/img.png" fixture.scenario_response
               eq_refl (lookup_singleton_eq _ _)).
    reflexivity.
  - unfold handleHash. vm_compute. reflexivity.
Qed.

(** * Worked runs *)

(** The scenario of the specification: the copy ends with the colour of
    pixels 2 and 4 blanked, and the hashed buffer starts with
    [00000002 00000002]. *)
Example scenario_run :
  run_computeHashes fixture.scenario_png []
  = (Ok fixture.scenario_response,
     [ObjImage fixture.Image
        (fixture.mkImage (fixture.origin_rect 2 2) fixture.scenario_pixels);
      ObjNRGBA fixture.Image
        (image.mkNRGBA fixture.blanked_pixels 8 (fixture.origin_rect 2 2))])
  /\ AlphaNormalized fixture.scenario_response
     = hashBuffer fixture.scenario_alpha_buffer.
Proof. split; vm_compute; reflexivity. Qed.

(** The two spellings of the URL share one cache entry: the second request
    is answered from the cache, and nothing is decoded for it. *)
Example same_url_twice :
  let σ1 := snd (recoverMiddleware fixture.Image run_handleHash
                   fixture.by_url_a fresh_world) in
  let σ2 := snd (recoverMiddleware fixture.Image run_handleHash
                   fixture.by_url_b σ1) in
  cache fixture.Image σ1 = {[ "url:http://x/img.png" := fixture.scenario_response ]}
  /\ cache fixture.Image σ2 = cache fixture.Image σ1
  /\ heap fixture.Image σ2 = heap fixture.Image σ1
  /\ written fixture.Image σ2
     = [http.JSONReply fixture.scenario_response;
        http.JSONReply fixture.scenario_response].
Proof.
  cbv zeta.
  assert (H1 : recoverMiddleware fixture.Image run_handleHash
                 fixture.by_url_a fresh_world
               = (Ok tt,
                  mkWorld fixture.Image
                    {[ "url:http://x/img.png" := fixture.scenario_response ]}
                    (snd (run_computeHashes fixture.scenario_png []))
                    [http.JSONReply fixture.scenario_response])).
  { unfold recoverMiddleware, handleHash. vm_compute. reflexivity. }
  rewrite H1. cbn [snd cache heap written].
  split; [reflexivity|].
  unfold recoverMiddleware.
  rewrite (handleHash_hit fixture.Image fixture.bounds fixture.Decode
             fixture.Draw fixture.Encode fixture.ToLower fixture.Parse
             fixture.String_ fixture.Get fixture.by_url_b _
             "url:http://x/img.png" fixture.scenario_response
             eq_refl (lookup_singleton_eq _ _)).
  repeat split; reflexivity.
Qed.

(** The test vectors of FIPS 180-4 for the digest. *)
Example Sum256_abc :
  hex_EncodeToString (sha256.Sum256 ["a"; "b"; "c"]%byte)
  = "ba7816bf8f01cfea414140de5dae2223b00361a396177a9cb410ff61f20015ad".
Proof. vm_compute. reflexivity. Qed.

Example Sum256_empty :
  hex_EncodeToString (sha256.Sum256 [])
  = "e3b0c44298fc1c149afbf4c8996fb92427ae41e4649b934ca495991b7852b855".
Proof. vm_compute. reflexivity. Qed.

Example Sum256_two_blocks :
  hex_EncodeToString
    (sha256.Sum256
       (map byte_of_ascii
          (list_ascii_of_string
             "abcdbcdecdefdefgefghfghighijhijkijkljklmklmnlmnomnopnopq")))
  = "248d6a61d20638b8e5c026930c3e6039a33ce45964ff2167f6ecedd419db06c1".
Proof. vm_compute. reflexivity. Qed.

(** * More runs on the miniature library *)

Local Abbreviation run_server :=
  (recoverMiddleware fixture.Image run_handleHash).

Lemma rendered_bindings_read_back_witness :
  exists ρ',
    bind (loadEnvironment fixture.TrimSpace
            (inl (inl (render [("HOST", "127.0.0.1"); ("PORT", "8080");
                               ("PORT", "9090")]))))
      (fun _ => getEnv "PORT") (mkProc ∅ [])
    = (Ok (default ""
             (last_bound [("HOST", "127.0.0.1"); ("PORT", "8080");
                          ("PORT", "9090")] "PORT")), ρ')
    /\ logged ρ'
       = [] ++ match last_bound [("HOST", "127.0.0.1"); ("PORT", "8080");
                                 ("PORT", "9090")] "PORT" with
               | Some _ => []
               | None => [Printed ("Warning: Environment variable " +:+ "PORT"
                                   +:+ " not found" +:+ String newline "")]
               end.
Proof.
  apply (rendered_bindings_read_back fixture.TrimSpace
           [("HOST", "127.0.0.1"); ("PORT", "8080"); ("PORT", "9090")]
           "PORT" []).
  - reflexivity.
  - repeat (constructor; [repeat split; vm_compute; reflexivity|]).
    constructor.
Defined.

Lemma cache_entries_persist_witness :
  cache fixture.Image
    (snd (run_server fixture.missing_page
            (mkWorld fixture.Image
               {[ "url:http://x/img.png" := fixture.scenario_response ]}
               [] [])))
  !! "url:http://x/img.png"
  = Some fixture.scenario_response.
Proof.
  apply (cache_entries_persist fixture.Image fixture.bounds fixture.Decode
           fixture.Draw fixture.Encode fixture.ToLower fixture.Parse
           fixture.String_ fixture.Get fixture.missing_page
           (mkWorld fixture.Image
              {[ "url:http://x/img.png" := fixture.scenario_response ]}
              [] [])
           "url:http://x/img.png" fixture.scenario_response).
  vm_compute. reflexivity.
Defined.

Lemma answered_request_repeats_from_cache_witness :
  run_server fixture.by_upload (snd (run_server fixture.by_upload fresh_world))
  = (Ok tt,
     add_reply fixture.Image
       (snd (run_server fixture.by_upload fresh_world))
       (http.JSONReply fixture.scenario_response)).
Proof.
  apply (answered_request_repeats_from_cache fixture.Image fixture.bounds
           fixture.Decode fixture.Draw fixture.Encode fixture.ToLower
           fixture.Parse fixture.String_ fixture.Get
           fixture.by_upload fresh_world fixture.scenario_response).
  vm_compute. reflexivity.
Defined.

Lemma url_and_upload_keys_differ_witness :
  "url:http://x/img.png" <> upload_cache_key fixture.scenario_png.
Proof.
  apply (url_and_upload_keys_differ fixture.Parse fixture.String_
           fixture.by_url_a fixture.by_upload
           "url:http://x/img.png" (upload_cache_key fixture.scenario_png)).
  - vm_compute. congruence.
  - reflexivity.
  - vm_compute. reflexivity.
  - vm_compute. reflexivity.
Defined.

Lemma cache_stays_well_formed_witness :
  (forall key val,
     cache fixture.Image (snd (run_server fixture.by_upload fresh_world))
     !! key = Some val ->
     well_formed val)
  /\ (forall val,
        last (written fixture.Image
                (snd (run_server fixture.by_upload fresh_world)))
        = Some (http.JSONReply val) ->
        well_formed val).
Proof.
  apply (cache_stays_well_formed fixture.Image fixture.bounds
           fixture.Decode fixture.Draw fixture.Encode fixture.ToLower
           fixture.Parse fixture.String_ fixture.Get
           fixture.by_upload fresh_world).
  intros key val Hbound. cbn [cache] in Hbound.
  rewrite lookup_empty in Hbound. discriminate.
Defined.

Lemma failed_upload_is_status_500_witness :
  run_handleHash (http.mkRequest "" (inl (inl fixture.scenario_jpeg)))
    fresh_world
  = (Ok tt,
     mkWorld fixture.Image
       (cache fixture.Image fresh_world)
       [ObjImage fixture.Image
          (fixture.mkImage (fixture.origin_rect 2 2) fixture.scenario_pixels)]
       (written fixture.Image fresh_world
          ++ [http.ErrorReply
                (error_body "Failed to compute hashes"
                   "only PNG images are supported")
                http.StatusInternalServerError])).
Proof.
  apply (failed_upload_is_status_500 fixture.Image fixture.bounds
           fixture.Decode fixture.Draw fixture.Encode fixture.ToLower
           fixture.Parse fixture.String_ fixture.Get
           (http.mkRequest "" (inl (inl fixture.scenario_jpeg)))
           fresh_world fixture.scenario_jpeg
           "only PNG images are supported").
  - reflexivity.
  - reflexivity.
  - apply lookup_empty.
  - vm_compute. reflexivity.
Defined.

Lemma url_parameter_takes_precedence_witness :
  run_handleHash fixture.by_url_a fresh_world
  = run_handleHash
      (http.mkRequest (http.query_url fixture.by_url_a)
         (inl (inl fixture.scenario_jpeg)))
      fresh_world.
Proof.
  apply (url_parameter_takes_precedence fixture.Image fixture.bounds
           fixture.Decode fixture.Draw fixture.Encode fixture.ToLower
           fixture.Parse fixture.String_ fixture.Get
           fixture.by_url_a (inl (inl fixture.scenario_jpeg)) fresh_world).
  vm_compute. congruence.
Defined.


Lemma blanking_twice_is_blanking_once_witness :
  let m := image.mkNRGBA fixture.scenario_pixels 8 (fixture.origin_rect 2 2) in
  let pass :=
    for_range 2 (fun y =>
      for_range 2 (fun x => blank_if_transparent fixture.Image 0 x y)) in
  bind pass (fun _ => pass)
    (<[0%nat := ObjNRGBA fixture.Image m]> [ObjNRGBA fixture.Image m])
  = pass (<[0%nat := ObjNRGBA fixture.Image m]> [ObjNRGBA fixture.Image m]).
Proof.
  intros m.
  apply (blanking_twice_is_blanking_once fixture.Image
           [ObjNRGBA fixture.Image m] 0%nat m 2 2).
  - cbn [length]. lia.
  - lia.
  - lia.
  - reflexivity.
  - reflexivity.
  - reflexivity.
Defined.

Lemma alpha_buffer_separates_dimensions_witness :
  let img1 :=
    fixture.mkImage (fixture.origin_rect 2 2) fixture.scenario_pixels in
  let img2 :=
    fixture.mkImage (fixture.origin_rect 2 2) fixture.blanked_pixels in
  image.Dx (fixture.bounds img1) = image.Dx (fixture.bounds img2)
  /\ image.Dy (fixture.bounds img1) = image.Dy (fixture.bounds img2)
  /\ normalized fixture.Image fixture.bounds fixture.Draw img1
     = normalized fixture.Image fixture.bounds fixture.Draw img2.
Proof.
  intros img1 img2.
  apply (alpha_buffer_separates_dimensions fixture.Image fixture.bounds
           fixture.Draw img1 img2).
  - vm_compute. split; congruence.
  - vm_compute. split; congruence.
  - vm_compute. split; congruence.
  - vm_compute. split; congruence.
  - vm_compute. reflexivity.
Defined.

Lemma fetched_skin_is_hashed_and_cached_witness :
  run_handleHash fixture.by_url_a fresh_world
  = (Ok tt,
     mkWorld fixture.Image
       (<["url:" +:+ fixture.String_
                       (strip_query_fragment
                          (url.mkURL "http" "" None "x" "/img.png" "" false
                             false "a=1" "frag" ""))
          := fixture.scenario_response]> (cache fixture.Image fresh_world))
       (snd (run_computeHashes fixture.scenario_png []))
       (written fixture.Image fresh_world
          ++ [http.JSONReply fixture.scenario_response])).
Proof.
  apply (fetched_skin_is_hashed_and_cached fixture.Image fixture.bounds
           fixture.Decode fixture.Draw fixture.Encode fixture.ToLower
           fixture.Parse fixture.String_ fixture.Get
           fixture.by_url_a fresh_world
           (url.mkURL "http" "" None "x" "/img.png" "" false false
              "a=1" "frag" "")
           (http.mkResponse 200 (inl fixture.scenario_png))
           fixture.scenario_png fixture.scenario_response
           (snd (run_computeHashes fixture.scenario_png []))).
  - vm_compute. congruence.
  - vm_compute. reflexivity.
  - apply lookup_empty.
  - vm_compute. reflexivity.
  - reflexivity.
  - reflexivity.
  - vm_compute. reflexivity.
Defined.

Lemma invalid_url_is_status_400_witness :
  normalizeURL fixture.Parse fixture.String_ ":"
  = (":", Some (fixture.parse_error ":" "missing protocol scheme"))
  /\ run_handleHash (http.mkRequest ":" fixture.no_upload) fresh_world
     = (Ok tt,
        add_reply fixture.Image fresh_world
          (http.ErrorReply
             (error_body "Invalid URL"
                (fixture.parse_error ":" "missing protocol scheme"))
             http.StatusBadRequest)).
Proof.
  apply (invalid_url_is_status_400 fixture.Image fixture.bounds
           fixture.Decode fixture.Draw fixture.Encode fixture.ToLower
           fixture.Parse fixture.String_ fixture.Get
           (http.mkRequest ":" fixture.no_upload) fresh_world
           (fixture.parse_error ":" "missing protocol scheme")).
  - vm_compute. congruence.
  - vm_compute. reflexivity.
Defined.

Lemma exact_copy_hashes_decoded_pixels_witness :
  hashes_decoded_pixels paletted.Image paletted.bounds paletted.Decode
    paletted.Draw paletted.Encode fixture.ToLower paletted.At
    paletted.faint_truecolour.
Proof.
  apply (exact_copy_hashes_decoded_pixels paletted.Image paletted.bounds
           paletted.Decode paletted.Draw paletted.Encode fixture.ToLower
           paletted.At paletted.faint_truecolour).
  intros img format Hdec _. vm_compute in Hdec. injection Hdec as <- <-.
  split.
  - repeat split; vm_compute; congruence.
  - intros x y Hx Hy. change (0 <= x < 1) in Hx. change (0 <= y < 1) in Hy.
    assert (Hxy : x = 0 /\ y = 0) by lia.
    destruct Hxy as [-> ->]. vm_compute. repeat split; reflexivity.
Defined.

Lemma exact_copies_ignore_hidden_colour_witness :
  hidden_colour_is_ignored paletted.Image paletted.bounds paletted.Decode
    paletted.Draw paletted.Encode fixture.ToLower paletted.At
    paletted.veiled_truecolour paletted.zeroed_truecolour.
Proof.
  apply (exact_copies_ignore_hidden_colour paletted.Image paletted.bounds
           paletted.Decode paletted.Draw paletted.Encode fixture.ToLower
           paletted.At paletted.veiled_truecolour
           paletted.zeroed_truecolour);
    intros img format Hdec _; vm_compute in Hdec; injection Hdec as <- <-;
    (split; [repeat split; vm_compute; congruence|]);
    intros x y Hx Hy; change (0 <= x < 2) in Hx; change (0 <= y < 1) in Hy;
    assert (Hxy : (x = 0 \/ x = 1) /\ y = 0) by lia;
    destruct Hxy as [[-> | ->] ->]; vm_compute; repeat split; reflexivity.
Defined.
